(** * linter-glslify: shader file names and validator output

    Shallow embedding of [src/linter-glslify.ts] and the properties of its
    two pure functions, [extractShaderFilenameTokens] and
    [parseGlslValidatorResponse], of [lint] and of the observer of the
    configuration.

    Conventions of the embedding.
    - A JavaScript string is a [string]; a character stands for one UTF-16
      code unit below 256.
    - A JavaScript number is a [JS.number]: a double whose value is an
      integer, or an infinity; [parseInt] returns [None] for NaN.
    - A function that may throw returns a [Result].
    - The [forEach] loops that push onto [toReturn] and flip
      [compileStarted] become left folds over an explicit state. *)

From Stdlib Require Import String Ascii List ZArith NArith Bool Lia.
Import ListNotations.
Local Open Scope string_scope.
Local Open Scope bool_scope.

(** ** The JavaScript string primitives the program calls *)

Module JS.

Definition code (c : ascii) : N := N_of_ascii c.

Definition between (lo hi : N) (c : ascii) : bool :=
  ((lo <=? code c) && (code c <=? hi))%N.

(** [\d] *)
Definition isDigit (c : ascii) : bool := between 48 57 c.

(** [\w] is [A-Za-z0-9_]. *)
Definition isWord (c : ascii) : bool :=
  between 65 90 c || between 97 122 c || isDigit c || (code c =? 95)%N.

(** The line terminators, which [.] refuses: LF and CR (U+2028 and U+2029
    lie outside the modelled range). *)
Definition isLineTerminator (c : ascii) : bool :=
  ((code c =? 10) || (code c =? 13))%N.

(** White space and line terminators, as [trim] and [parseInt] skip them:
    TAB, LF, VT, FF, CR, SP and NBSP. *)
Definition isWhiteSpace (c : ascii) : bool :=
  (between 9 13 c || (code c =? 32) || (code c =? 160))%N.

Fixpoint forallb (p : ascii -> bool) (s : string) : bool :=
  match s with
  | EmptyString => true
  | String c s' => p c && forallb p s'
  end.

(** A run of characters [.*] can cover up to the end of the input. *)
Definition oneLine (s : string) : bool :=
  forallb (fun c => negb (isLineTerminator c)) s.

Fixpoint rev (s : string) : string :=
  match s with
  | EmptyString => EmptyString
  | String c s' => rev s' ++ String c EmptyString
  end.

(** [s.endsWith(suffix)]: [suffix] is [s] or the end of a tail of [s]. *)
Fixpoint endsWith (s suffix : string) : bool :=
  (s =? suffix) ||
  match s with
  | EmptyString => false
  | String _ s' => endsWith s' suffix
  end.

(** [s.split(sep)] for a separator that is not empty.  [skip] counts the
    characters of a separator still to be passed over, [cur] is the piece
    being read, in reverse. *)
Fixpoint splitFrom (sep : string) (skip : nat) (cur : string) (s : string)
  : list string :=
  match s with
  | EmptyString => [rev cur]
  | String c s' =>
      match skip with
      | S k => splitFrom sep k cur s'
      | O =>
          if prefix sep s
          then rev cur :: splitFrom sep (String.length sep - 1) EmptyString s'
          else splitFrom sep 0 (String c cur) s'
      end
  end.

Definition split (s sep : string) : list string :=
  splitFrom sep 0 EmptyString s.

(** [toLowerCase] on one code unit: A-Z, and the Latin-1 capitals
    U+00C0..U+00DE without the multiplication sign U+00D7. *)
Definition lowerChar (c : ascii) : ascii :=
  if between 65 90 c
     || (between 192 222 c && negb (code c =? 215)%N)
  then ascii_of_N (code c + 32)
  else c.

Fixpoint toLowerCase (s : string) : string :=
  match s with
  | EmptyString => EmptyString
  | String c s' => String (lowerChar c) (toLowerCase s')
  end.

Fixpoint trimStart (s : string) : string :=
  match s with
  | EmptyString => EmptyString
  | String c s' => if isWhiteSpace c then trimStart s' else s
  end.

Definition trim (s : string) : string :=
  rev (trimStart (rev (trimStart s))).

(** A number: a double whose value is an integer, or an infinity. *)
Inductive number : Set :=
| Int (z : Z)
| Infinity (negative : bool).

(** The double nearest to a natural number [z]: [z] itself below 2^53,
    above it the multiple of a power of two with a significand of 53
    bits, ties going to the even significand, and infinity from 2^1024
    on. *)
Definition nearestDouble (z : Z) : number :=
  if (z <? 2 ^ 53)%Z then Int z else
  let e := (Z.log2 z - 52)%Z in
  let q := Z.shiftr z e in
  let rest := (z - Z.shiftl q e)%Z in
  let half := Z.shiftl 1 (e - 1) in
  let q :=
    if (half <? rest)%Z || ((rest =? half)%Z && Z.odd q)
    then (q + 1)%Z else q in
  let v := Z.shiftl q e in
  if (v <? 2 ^ 1024)%Z then Int v else Infinity false.

Definition negate (n : number) : number :=
  match n with
  | Int z => Int (- z)
  | Infinity negative => Infinity (negb negative)
  end.

(** [parseInt(s, 10)]: white space, an optional sign, then the longest
    run of decimal digits, whose value is rounded to a double; NaN
    ([None]) when there is no digit. *)
Fixpoint digitsFrom (acc : option Z) (s : string) : option Z :=
  match s with
  | EmptyString => acc
  | String c s' =>
      if isDigit c
      then
        let d := (Z.of_N (code c) - 48)%Z in
        digitsFrom
          (Some (match acc with Some a => a * 10 + d | None => d end)%Z) s'
      else acc
  end.

Definition parseInt (s : string) : option number :=
  match trimStart s with
  | String "-" s' =>
      option_map (fun z => negate (nearestDouble z)) (digitsFrom None s')
  | String "+" s' => option_map nearestDouble (digitsFrom None s')
  | s' => option_map nearestDouble (digitsFrom None s')
  end.

(** [n > 0 ? n - 1 : 0] on a number that may be NaN, for which the
    comparison is false; the difference is rounded to a double. *)
Definition zeroBased (n : option number) : number :=
  match n with
  | Some (Int z) => if (0 <? z)%Z then nearestDouble (z - 1) else Int 0
  | Some (Infinity false) => Infinity false
  | Some (Infinity true) => Int 0
  | None => Int 0
  end.

(** [Array.prototype.includes] on strings. *)
Definition includes (l : list string) (s : string) : bool :=
  existsb (String.eqb s) l.

(** *** The pieces of a regular expression *)

(** A greedy class repetition [ [c]* ]: the longest prefix in the class,
    and what follows it. *)
Fixpoint span (p : ascii -> bool) (s : string) : string * string :=
  match s with
  | EmptyString => (EmptyString, EmptyString)
  | String c s' =>
      if p c
      then let '(a, b) := span p s' in (String c a, b)
      else (EmptyString, s)
  end.

(** A literal: the input without it, if the input starts with it. *)
Fixpoint literal (lit s : string) : option string :=
  match lit, s with
  | EmptyString, _ => Some s
  | String a lit', String b s' =>
      if Ascii.eqb a b then literal lit' s' else None
  | String _ _, EmptyString => None
  end.

(** An alternation of literals followed by [tail] and the end of input:
    the first alternative that fits. *)
Fixpoint firstAlt (alts : list string) (tail s : string) : option string :=
  match alts with
  | [] => None
  | a :: alts' =>
      if s =? a ++ tail then Some a else firstAlt alts' tail s
  end.

(** The pattern [^(.*SEP)(a1|...|an)TAIL$], SEP one character of [seps]:
    the groups 1 and 2.  The greedy [.*] first takes the character in
    front of it (never a line terminator) and gives it back only when
    nothing matches further on, so the longest group 1 wins. *)
Fixpoint stemAlt (seps : list ascii) (alts : list string) (tail s : string)
  : option (string * string) :=
  match s with
  | EmptyString => None
  | String c s' =>
      match
        (if isLineTerminator c then None else stemAlt seps alts tail s')
      with
      | Some (g1, g2) => Some (String c g1, g2)
      | None =>
          if existsb (Ascii.eqb c) seps
          then option_map (fun a => (String c EmptyString, a))
                          (firstAlt alts tail s')
          else None
      end
  end.

End JS.

(** ** The platform: [os.EOL] *)

Module os.

Inductive platform : Set := posix | win32.

Definition EOL (p : platform) : string :=
  match p with
  | posix => String "010" EmptyString
  | win32 => String "013" (String "010" EmptyString)
  end.

End os.

(** ** Data *)

Inductive Result (A : Type) : Type :=
| Return (a : A)
| Throw (message : string).
Arguments Return {A} a.
Arguments Throw {A} message.

Module ShaderType.
Record t : Set := Build
  { char1 : option string;
    char2 : string;
    char4 : string;
    name : string }.

(** [keyof ShaderType], and [shaderType[fieldName]], which is [undefined]
    ([None]) for a missing [char1]. *)
Inductive key : Set := Kchar1 | Kchar2 | Kchar4 | Kname.

Definition get (k : key) (x : t) : option string :=
  match k with
  | Kchar1 => char1 x
  | Kchar2 => Some (char2 x)
  | Kchar4 => Some (char4 x)
  | Kname => Some (name x)
  end.
End ShaderType.

Module Shader.
Record t : Set := Build
  { type : ShaderType.t;
    name : string;
    fullFilename : option string;
    contents : string;
    outFilename : option string }.
End Shader.

Module ShaderTokens.
Record t : Set := Build
  { baseFilename : string;
    baseShaderType : ShaderType.t;
    dirName : string;
    outFilename : string;
    fullFilename : string }.
End ShaderTokens.

Definition Range : Set := (JS.number * JS.number) * (JS.number * JS.number).

Module LintResult.
Record loc : Set := Location
  { file : option string;
    position : Range }.

Record t : Set := Build
  { severity : string;
    excerpt : string;
    location : loc }.
End LintResult.

(** ** Constants *)

Definition VALID_SEVERITY : list string := ["error"; "warning"; "info"].

(** The five file-name patterns, each as its [exec]: the groups 1 and 2 of
    a match.  In the source they are
    [^(.*(?:\.|_))(v|g|f)(\.glsl)$],
    [^(.*(?:\.|_))(vs|tc|te|gs|fs|cs)(\.glsl)$],
    [^(.*\.)(v|g|f)sh$], [^(.*\.)(vs|tc|te|gs|fs|cs)$] and
    [^(.*\.)(vert|frag|geom|tesc|tese|comp)$]; group 3 of the first two is
    the suffix and is never read. *)
Definition char1glslRegex : string -> option (string * string) :=
  JS.stemAlt ["."; "_"]%char ["v"; "g"; "f"] ".glsl".
Definition char2glslRegex : string -> option (string * string) :=
  JS.stemAlt ["."; "_"]%char ["vs"; "tc"; "te"; "gs"; "fs"; "cs"] ".glsl".
Definition char1shRegex : string -> option (string * string) :=
  JS.stemAlt ["."]%char ["v"; "g"; "f"] "sh".
Definition char2Regex : string -> option (string * string) :=
  JS.stemAlt ["."]%char ["vs"; "tc"; "te"; "gs"; "fs"; "cs"] EmptyString.
Definition defaultRegex : string -> option (string * string) :=
  JS.stemAlt ["."]%char ["vert"; "frag"; "geom"; "tesc"; "tese"; "comp"]
    EmptyString.

(** The class [[\w \-]]. *)
Definition isSeverityChar (c : ascii) : bool :=
  JS.isWord c || Ascii.eqb c " " || Ascii.eqb c "-".

(** [new RegExp(compileRegex).exec(line)], the groups 1 to 4 of
    [^([\w \-]+): (\d+):(\d+): ] followed by group 4, any characters up to
    the end of the input.  No character of the class of group 1 is a colon
    and no digit is one, so each repetition can only stop where its class
    stops; group 4 needs the rest of the line free of line terminators. *)
Definition compileRegex (line : string)
  : option (string * string * string * string) :=
  let '(g1, r1) := JS.span isSeverityChar line in
  if g1 =? EmptyString then None else
  match JS.literal ": " r1 with
  | None => None
  | Some r2 =>
      let '(g2, r3) := JS.span JS.isDigit r2 in
      if g2 =? EmptyString then None else
      match JS.literal ":" r3 with
      | None => None
      | Some r4 =>
          let '(g3, r5) := JS.span JS.isDigit r4 in
          if g3 =? EmptyString then None else
          match JS.literal ": " r5 with
          | None => None
          | Some g4 => if JS.oneLine g4 then Some (g1, g2, g3, g4) else None
          end
      end
  end.

(** [new RegExp(linkRegex.replace("{{typeName}}", typeName)).exec(line)],
    the groups 1 and 2 of [^([\w \-]+): Linking {{typeName}} stage: ]
    followed by group 2, any characters up to the end of the input.
    [typeName] becomes part of the pattern; the names of [shaderTypes] are
    letters and spaces, which a pattern and a replacement text take
    literally, and the embedding reads every [typeName] so. *)
Definition linkRegex (typeName line : string) : option (string * string) :=
  let '(g1, r1) := JS.span isSeverityChar line in
  if g1 =? EmptyString then None else
  match JS.literal (": Linking " ++ typeName ++ " stage: ") r1 with
  | None => None
  | Some g2 => if JS.oneLine g2 then Some (g1, g2) else None
  end.

Definition vertex : ShaderType.t :=
  ShaderType.Build (Some "v") "vs" "vert" "vertex".
Definition fragment : ShaderType.t :=
  ShaderType.Build (Some "f") "fs" "frag" "fragment".
Definition geometry : ShaderType.t :=
  ShaderType.Build (Some "g") "gs" "geom" "geometry".
Definition tessEvaluation : ShaderType.t :=
  ShaderType.Build None "te" "tese" "tessellation evaluation".
Definition tessControl : ShaderType.t :=
  ShaderType.Build None "tc" "tesc" "tessellation control".
Definition compute : ShaderType.t :=
  ShaderType.Build None "cs" "comp" "compute".

Definition shaderTypes : list ShaderType.t :=
  [vertex; fragment; geometry; tessEvaluation; tessControl; compute].

(** ** Functions *)

Definition getSeverity (givenSeverity : string) : string :=
  let severity := JS.toLowerCase givenSeverity in
  if JS.includes VALID_SEVERITY severity then severity else "warning".

(** [filter(...)[0]] is [undefined] ([None]) when nothing passes. *)
Definition shaderTypeLookup (fieldName : ShaderType.key) (fieldValue : string)
  : option ShaderType.t :=
  hd_error
    (filter
       (fun shaderType =>
          match ShaderType.get fieldName shaderType with
          | Some v => v =? fieldValue
          | None => false
          end)
       shaderTypes).

Definition shaderByChar1 := shaderTypeLookup ShaderType.Kchar1.
Definition shaderByChar2 := shaderTypeLookup ShaderType.Kchar2.
Definition shaderByChar4 := shaderTypeLookup ShaderType.Kchar4.

(** What the compile branch pushes for a match [m] of [compileRegex]. *)
Definition compileResult (shader : Shader.t)
  (m : string * string * string * string) : LintResult.t :=
  let '(m1, m2, m3, m4) := m in
  let lineStart := JS.parseInt m3 in
  let colStart := JS.parseInt m2 in
  let lineEnd := lineStart in
  let colEnd := colStart in
  {| LintResult.severity := getSeverity m1;
     LintResult.excerpt := JS.trim m4;
     LintResult.location :=
       {| LintResult.file := Shader.fullFilename shader;
          LintResult.position :=
            ((JS.zeroBased lineStart, JS.zeroBased colStart),
             (JS.zeroBased lineEnd, JS.zeroBased colEnd)) |} |}.

(** What the link test pushes for a match [linkMatch] of [linkRegex]. *)
Definition linkResult (shader : Shader.t) (firstRowRange : Range)
  (linkMatch : string * string) : LintResult.t :=
  {| LintResult.severity := getSeverity (fst linkMatch);
     LintResult.excerpt := JS.trim (snd linkMatch);
     LintResult.location :=
       {| LintResult.file := Shader.fullFilename shader;
          LintResult.position := firstRowRange |} |}.

(** The state the two loops of [parseGlslValidatorResponse] work on: the
    flag [compileStarted] of the shader being read and the array
    [toReturn], to which [push] appends. *)
Definition ScanState : Set := (bool * list LintResult.t)%type.

(** The body of the loop over the lines, for one shader; [inputs_length] is
    [inputs.length]. *)
Definition forEachLine (inputs_length : nat) (shader : Shader.t)
  (firstRowRange : Range) (st : ScanState) (line : string) : ScanState :=
  let '(compileStarted, toReturn) := st in
  let typeName := ShaderType.name (Shader.type shader) in
  let '(compileStarted, toReturn) :=
    if JS.endsWith line (Shader.name shader) then (true, toReturn)
    else if compileStarted || (inputs_length =? 1)%nat then
      match compileRegex line with
      | Some m => (compileStarted, (toReturn ++ [compileResult shader m])%list)
      | None => (false, toReturn)
      end
    else (compileStarted, toReturn) in
  match linkRegex typeName line with
  | Some linkMatch =>
      (compileStarted,
       (toReturn ++ [linkResult shader firstRowRange linkMatch])%list)
  | None => (compileStarted, toReturn)
  end.

(** The body of the loop over the shaders: [compileStarted] starts false,
    [toReturn] is carried on. *)
Definition forEachShader (p : os.platform) (inputs_length : nat)
  (output : string) (firstRowRange : Range)
  (toReturn : list LintResult.t) (shader : Shader.t) : list LintResult.t :=
  snd (fold_left (forEachLine inputs_length shader firstRowRange)
                 (JS.split output (os.EOL p)) (false, toReturn)).

(** The promise always resolves, with [toReturn]. *)
Definition parseGlslValidatorResponse (p : os.platform)
  (inputs : list Shader.t) (output : string) (firstRowRange : Range)
  : list LintResult.t :=
  fold_left (forEachShader p (List.length inputs) output firstRowRange)
            inputs [].

Section Classifier.

(** [path.basename] and [path.dirname] of Node, which the repository does
    not define. *)
Variables basename dirname : string -> string.

(** The end of [extractShaderFilenameTokens], from [let outFilename] on,
    which the five branches share.  [found] is [baseShaderType];
    [baseShaderType.char4] on [undefined] throws a TypeError. *)
Definition finish (shaderFilename baseFilename : string)
  (found : option ShaderType.t) : Result ShaderTokens.t :=
  match found with
  | None => Throw "TypeError"
  | Some baseShaderType =>
      let outFilename := baseFilename in
      let outFilename :=
        if negb (JS.endsWith outFilename ".")
        then outFilename ++ "." else outFilename in
      let outFilename := outFilename ++ ShaderType.char4 baseShaderType in
      Return
        {| ShaderTokens.baseFilename := baseFilename;
           ShaderTokens.baseShaderType := baseShaderType;
           ShaderTokens.dirName := dirname shaderFilename;
           ShaderTokens.outFilename := outFilename;
           ShaderTokens.fullFilename := shaderFilename |}
  end.

Definition extractShaderFilenameTokens (shaderFilename : string)
  : Result ShaderTokens.t :=
  let fileName := basename shaderFilename in
  let extChar1GlslMatch := char1glslRegex fileName in
  let extChar2GlslMatch := char2glslRegex fileName in
  let extChar2Match := char2Regex fileName in
  let extChar1ShMatch := char1shRegex fileName in
  let extDefaultMatch := defaultRegex fileName in
  match extChar1GlslMatch with
  | Some (m1, m2) => finish shaderFilename m1 (shaderByChar1 m2)
  | None =>
  match extChar2GlslMatch with
  | Some (m1, m2) => finish shaderFilename m1 (shaderByChar2 m2)
  | None =>
  match extChar1ShMatch with
  | Some (m1, m2) => finish shaderFilename m1 (shaderByChar1 m2)
  | None =>
  match extChar2Match with
  | Some (m1, m2) => finish shaderFilename m1 (shaderByChar2 m2)
  | None =>
  match extDefaultMatch with
  | Some (m1, m2) => finish shaderFilename m1 (shaderByChar4 m2)
  | None => Throw "Unknown shader type"
  end end end end end.

(** The record [lint] builds from the tokens of the file being edited. *)
Definition shaderOf (file content : string) (shaderFileTokens : ShaderTokens.t)
  : Shader.t :=
  {| Shader.name := ShaderTokens.outFilename shaderFileTokens;
     Shader.fullFilename := Some file;
     Shader.type := ShaderTokens.baseShaderType shaderFileTokens;
     Shader.contents := content;
     Shader.outFilename := None |}.

End Classifier.

(** [path.posix] of Node, for file names to try the classifier on:
    [basename] drops the slashes at the end and keeps what follows the last
    slash left; [dirname] is not looked at by any property below. *)
Module posix.

Definition isSlash (c : ascii) : bool := Ascii.eqb c "/".

Fixpoint dropSlashes (s : string) : string :=
  match s with
  | String c s' => if isSlash c then dropSlashes s' else s
  | EmptyString => EmptyString
  end.

Definition basename (path : string) : string :=
  JS.rev (fst (JS.span (fun c => negb (isSlash c))
                       (dropSlashes (JS.rev path)))).

Definition dirname (path : string) : string :=
  match path with
  | EmptyString => "."
  | String c0 rest =>
      match snd (JS.span (fun c => negb (isSlash c))
                         (dropSlashes (JS.rev rest))) with
      | EmptyString => if isSlash c0 then "/" else "."
      | String _ EmptyString =>
          if isSlash c0 then "//" else String c0 EmptyString
      | String _ before => String c0 (JS.rev before)
      end
  end.

End posix.

(** ** Definitions for the statements *)

(** A shader whose stage is one of the six of [shaderTypes]. *)
Definition builtin (shader : Shader.t) : Prop :=
  In (Shader.type shader) shaderTypes.

(** A shader record as a caller builds it: its name and its type are those
    the classifier returned for some file. *)
Definition Classified (shader : Shader.t) : Prop :=
  exists basename dirname file tokens,
    extractShaderFilenameTokens basename dirname file = Return tokens /\
    Shader.name shader = ShaderTokens.outFilename tokens /\
    Shader.type shader = ShaderTokens.baseShaderType tokens.

(** What one line adds to [toReturn] in the compile branch, what it adds in
    the link test, and the flag it leaves. *)
Definition compilePart (inputs_length : nat) (shader : Shader.t)
  (compileStarted : bool) (line : string) : list LintResult.t :=
  if JS.endsWith line (Shader.name shader) then []
  else if compileStarted || (inputs_length =? 1)%nat then
    match compileRegex line with
    | Some m => [compileResult shader m]
    | None => []
    end
  else [].

Definition linkPart (shader : Shader.t) (firstRowRange : Range)
  (line : string) : list LintResult.t :=
  match linkRegex (ShaderType.name (Shader.type shader)) line with
  | Some linkMatch => [linkResult shader firstRowRange linkMatch]
  | None => []
  end.

Definition nextStarted (inputs_length : nat) (shader : Shader.t)
  (compileStarted : bool) (line : string) : bool :=
  if JS.endsWith line (Shader.name shader) then true
  else if compileStarted || (inputs_length =? 1)%nat then
    match compileRegex line with
    | Some _ => compileStarted
    | None => false
    end
  else compileStarted.

(** The diagnostics of one shader over the lines, from a given flag. *)
Fixpoint scan (inputs_length : nat) (shader : Shader.t)
  (firstRowRange : Range) (compileStarted : bool) (lines : list string)
  : list LintResult.t :=
  match lines with
  | [] => []
  | line :: rest =>
      (compilePart inputs_length shader compileStarted line
       ++ linkPart shader firstRowRange line
       ++ scan inputs_length shader firstRowRange
            (nextStarted inputs_length shader compileStarted line) rest)%list
  end.

(** A file-name pattern: the separators allowed in front of the stage
    code, the field of [ShaderType] the code is looked up in, the codes, and
    what follows the code. *)
Record Pattern : Set := MkPattern
  { seps : list ascii;
    field : ShaderType.key;
    codes : list string;
    tail : string }.

Definition codes1 : list string := ["v"; "g"; "f"].
Definition codes2 : list string := ["vs"; "tc"; "te"; "gs"; "fs"; "cs"].
Definition codes4 : list string :=
  ["vert"; "frag"; "geom"; "tesc"; "tese"; "comp"].

(** The five patterns as the regular expressions of the program have them,
    in the order in which [extractShaderFilenameTokens] asks them. *)
Definition char1glsl : Pattern :=
  MkPattern ["."; "_"]%char ShaderType.Kchar1 codes1 ".glsl".
Definition char2glsl : Pattern :=
  MkPattern ["."; "_"]%char ShaderType.Kchar2 codes2 ".glsl".
Definition char1sh : Pattern :=
  MkPattern ["."]%char ShaderType.Kchar1 codes1 "sh".
Definition char2bare : Pattern :=
  MkPattern ["."]%char ShaderType.Kchar2 codes2 EmptyString.
Definition char4bare : Pattern :=
  MkPattern ["."]%char ShaderType.Kchar4 codes4 EmptyString.

Definition codePatterns : list Pattern :=
  [char1glsl; char2glsl; char1sh; char2bare; char4bare].

(** The five naming conventions in the words of the specification:
    [<base>.<v|g|f>.glsl], [<base>.<vs|tc|te|gs|fs|cs>.glsl],
    [<base>.<v|g|f>sh], [<base>.<vs|tc|te|gs|fs|cs>] and
    [<base>.<vert|frag|geom|tesc|tese|comp>]: the separator is a dot. *)
Definition specPatterns : list Pattern :=
  [ MkPattern ["."]%char ShaderType.Kchar1 ["v"; "g"; "f"] ".glsl";
    MkPattern ["."]%char ShaderType.Kchar2
      ["vs"; "tc"; "te"; "gs"; "fs"; "cs"] ".glsl";
    MkPattern ["."]%char ShaderType.Kchar1 ["v"; "g"; "f"] "sh";
    MkPattern ["."]%char ShaderType.Kchar2
      ["vs"; "tc"; "te"; "gs"; "fs"; "cs"] EmptyString;
    MkPattern ["."]%char ShaderType.Kchar4
      ["vert"; "frag"; "geom"; "tesc"; "tese"; "comp"] EmptyString ].

(** [fileName] is [base], a separator, a code and the tail of the pattern;
    [base] is any text on one line. *)
Definition Matches (P : Pattern) (fileName base : string) (sep : ascii)
  (code : string) : Prop :=
  fileName = base ++ String sep (code ++ tail P) /\
  In sep (seps P) /\ In code (codes P) /\ JS.oneLine base = true.

Definition exec (P : Pattern) : string -> option (string * string) :=
  JS.stemAlt (seps P) (codes P) (tail P).

(** The ends a name matching [P] can have. *)
Definition endings (P : Pattern) : list string :=
  flat_map (fun sep => map (fun code => String sep (code ++ tail P)) (codes P))
           (seps P).

(** Every code of [P] has [k] characters. *)
Definition uniform (k : nat) (P : Pattern) : Prop :=
  forall a, In a (codes P) -> String.length a = k.

(** No ending of [P] is an end of an ending of [Q], nor the other way. *)
Definition apart (P Q : Pattern) : bool :=
  List.forallb
    (fun u =>
       List.forallb
         (fun v => negb (JS.endsWith u v) && negb (JS.endsWith v u))
         (endings Q))
    (endings P).

(** The shape of a line the compile pattern accepts. *)
Definition CompileLine (line g1 g2 g3 g4 : string) : Prop :=
  line = g1 ++ ": " ++ g2 ++ ":" ++ g3 ++ ": " ++ g4 /\
  g1 <> EmptyString /\ JS.forallb isSeverityChar g1 = true /\
  g2 <> EmptyString /\ JS.forallb JS.isDigit g2 = true /\
  g3 <> EmptyString /\ JS.forallb JS.isDigit g3 = true /\
  JS.oneLine g4 = true.

(** The shape of a line the link pattern of a stage name accepts. *)
Definition LinkLine (typeName line g1 g2 : string) : Prop :=
  line = g1 ++ ": Linking " ++ typeName ++ " stage: " ++ g2 /\
  g1 <> EmptyString /\ JS.forallb isSeverityChar g1 = true /\
  JS.oneLine g2 = true.

(** Two words are the same but for the case of their letters. *)
Definition sameIgnoringCase (a b : string) : Prop :=
  JS.toLowerCase a = JS.toLowerCase b.

(** What [finish] returns for a stage that was found. *)
Definition tokensOf (dirname : string -> string) (f g1 : string)
  (t : ShaderType.t) : ShaderTokens.t :=
  {| ShaderTokens.baseFilename := g1;
     ShaderTokens.baseShaderType := t;
     ShaderTokens.dirName := dirname f;
     ShaderTokens.outFilename :=
       (if JS.endsWith g1 "." then g1 else g1 ++ ".") ++ ShaderType.char4 t;
     ShaderTokens.fullFilename := f |}.

(** A number is not negative; a line or column number is zero-based. *)
Definition nonNeg (n : JS.number) : Prop :=
  match n with
  | JS.Int z => (0 <= z)%Z
  | JS.Infinity negative => negative = false
  end.

Definition nonNegative (r : Range) : Prop :=
  nonNeg (fst (fst r)) /\ nonNeg (snd (fst r)) /\
  nonNeg (fst (snd r)) /\ nonNeg (snd (snd r)).

(** The number a run of decimal digits writes, digit by digit with its
    power of ten. *)
Fixpoint decimal (g : string) : Z :=
  match g with
  | EmptyString => 0%Z
  | String c g' =>
      ((Z.of_N (N_of_ascii c) - 48) * 10 ^ Z.of_nat (String.length g')
       + decimal g')%Z
  end.

(** The zero-based number [n] for a reported one-based number: never
    negative, and below 2^53 the reported number less one, zero staying
    zero. *)
Definition PointOf (reported : Z) (n : JS.number) : Prop :=
  nonNeg n /\
  ((reported < 2 ^ 53)%Z -> n = JS.Int (Z.max 0 (reported - 1))).

(** [word] is [small], a word in small letters, but for the case of its
    letters: each character is the small letter or its capital. *)
Fixpoint spelled (small word : string) : Prop :=
  match small, word with
  | EmptyString, EmptyString => True
  | String x small', String c word' =>
      (c = x \/ (N_of_ascii c + 32 = N_of_ascii x)%N) /\
      spelled small' word'
  | _, _ => False
  end.

(** A word in the small letters a to z. *)
Fixpoint smallLetters (v : string) : Prop :=
  match v with
  | EmptyString => True
  | String x v' => JS.between 97 122 x = true /\ smallLetters v'
  end.

(** The severity of a diagnostic whose line has [word] as first group. *)
Definition SeverityOf (word severity : string) : Prop :=
  (spelled "error" word /\ severity = "error") \/
  (spelled "warning" word /\ severity = "warning") \/
  (spelled "info" word /\ severity = "info") \/
  (~ spelled "error" word /\ ~ spelled "warning" word /\
   ~ spelled "info" word /\ severity = "warning").

(** [message] is [text] without the white space at its two ends. *)
Definition TrimOf (text message : string) : Prop :=
  (match message with
   | EmptyString => True
   | String c _ => JS.isWhiteSpace c = false
   end /\
   match JS.rev message with
   | EmptyString => True
   | String c _ => JS.isWhiteSpace c = false
   end) /\
  exists front back,
    text = front ++ message ++ back /\
    JS.forallb JS.isWhiteSpace front = true /\
    JS.forallb JS.isWhiteSpace back = true.

Definition aFrag : Shader.t :=
  {| Shader.type := fragment;
     Shader.name := "a.frag";
     Shader.fullFilename := Some "/src/a.fs.glsl";
     Shader.contents := "void main() {}";
     Shader.outFilename := None |}.

Definition bVert : Shader.t :=
  {| Shader.type := vertex;
     Shader.name := "b.vert";
     Shader.fullFilename := Some "/src/b.vsh";
     Shader.contents := "void main() {}";
     Shader.outFilename := None |}.

Definition firstRow : Range := ((JS.Int 0, JS.Int 0), (JS.Int 0, JS.Int 14)).

(** An output of several lines on a platform. *)
Definition outputOf (p : os.platform) (lines : list string) : string :=
  String.concat (os.EOL p) lines.

(** ** The linter and the observer of the configuration *)

(** A text has no white space at either end. *)
Definition trimmed (s : string) : Prop :=
  match s with
  | EmptyString => True
  | String c _ => JS.isWhiteSpace c = false
  end /\
  match JS.rev s with
  | EmptyString => True
  | String c _ => JS.isWhiteSpace c = false
  end.

(** [config.glslangValidatorPath.default]. *)
Definition defaultValidatorPath : string := "glslangValidator".

(** [module.exports.config.glslangValidatorPath.default].  The object with
    [config] is the default export of the module: the read gives the
    default above when the build makes [module.exports] that object
    ([exported]), and throws a TypeError when [module.exports] has no
    [config]. *)
Definition configDefault (exported : bool) : Result string :=
  if exported then Return defaultValidatorPath else Throw "TypeError".

(** [if (x)] on a string that may be [undefined]. *)
Definition truthy (x : option string) : bool :=
  match x with
  | Some s => negb (s =? EmptyString)
  | None => false
  end.

(** The text editor, as [lint] reads it. *)
Record TextEditor : Set := MkEditor
  { getPath : option string;
    getText : string }.

Section Linter.

(** [path.basename] and [path.dirname]; [helpers.exec] behind
    [helpers.tempFiles], as the way its promise settles for a command and
    the files to validate ([Throw] for a rejection); and
    [helpers.generateRange(editor, 0)]. *)
Variables basename dirname : string -> string.
Variable exec : string -> list Shader.t -> Result string.
Variable generateRange : TextEditor -> Result Range.

(** Whether [module.exports] is the exported object. *)
Variable exported : bool.

(** [lint] of [provideLinter]: [Throw] is an exception out of [lint],
    [Return None] a promise resolved with [null], [Return (Some l)] one
    resolved with the results.  [glslangValidatorPath] is the field of
    [state]. *)
Definition lint (p : os.platform) (glslangValidatorPath : option string)
  (editor : TextEditor) : Result (option (list LintResult.t)) :=
  let file := getPath editor in
  let content := getText editor in
  match
    match glslangValidatorPath with
    | Some command => Return command
    | None => configDefault exported
    end
  with
  | Throw message => Throw message
  | Return command =>
  if negb (truthy file) then Throw "editor.getPath failed" else
  match file with
  | None => Throw "editor.getPath failed"
  | Some file =>
      match extractShaderFilenameTokens basename dirname file with
      | Throw message => Throw message
      | Return shaderFileTokens =>
          let filesToValidate := [shaderOf file content shaderFileTokens] in
          match exec command filesToValidate with
          | Throw _ => Return None
          | Return output =>
              match generateRange editor with
              | Throw _ => Return None
              | Return firstRowRange =>
                  Return
                    (Some (parseGlslValidatorResponse p filesToValidate
                             output firstRowRange))
              end
          end
      end
  end
  end.

End Linter.

(** What the observer of the configuration does to the outside, in
    order: [console.log], and the calls on the message panel. *)
Inductive Effect : Set :=
| ConsoleLog
| PanelClose
| PanelNew (title : string)
| PanelAttach
| PanelToggle
| PanelClear
| PanelAdd (message className : string).

(** [state]: the validator path, and whether there is a message panel. *)
Record State : Set := MkState
  { subscriptions : bool;
    glslangValidatorPath : option string;
    messages : bool }.

(** What [fs] and [which] answer for the configured path:
    [fs.existsSync], [fs.statSync(...).isFile()], whether [fs.accessSync]
    returns, and [which.sync]. *)
Record Probe : Set := MkProbe
  { existsSync : bool;
    isFile : Result bool;
    accessSync : bool;
    whichSync : Result string }.

(** The end of the observer: the panel is closed when there is a path and
    filled with the warning when there is none. *)
Definition report (given : string) (st : State) (log : list Effect)
  : State * list Effect :=
  if truthy (glslangValidatorPath st) then
    if messages st
    then (MkState (subscriptions st) (glslangValidatorPath st) false,
          (log ++ [PanelClose])%list)
    else (st, log)
  else
    let '(st, log) :=
      if negb (messages st)
      then (MkState (subscriptions st) (glslangValidatorPath st) true,
            (log ++ [PanelNew "linter-glslify"; PanelAttach; PanelToggle])
              %list)
      else (st, log) in
    (st,
     (log ++ [PanelClear;
              PanelAdd ("Unable to locate glslangValidator at '"
                        ++ given ++ "'") "text-error"])%list).

Definition lookOnPath (pr : Probe) (given : string) (st : State)
  : State * list Effect :=
  match whichSync pr with
  | Return found =>
      report given (MkState (subscriptions st) (Some found) (messages st)) []
  | Throw _ => report given st [ConsoleLog]
  end.

(** The function [activate] gives to [atom.config.observe].  The third
    component is the exception that leaves it: the TypeError of its first
    statement when [module.exports] has no [config], with [state] as it
    was, or what [fs.statSync] throws. *)
Definition observe (exported : bool) (pr : Probe) (given : string)
  (st : State) : State * list Effect * option string :=
  match configDefault exported with
  | Throw message => (st, [], Some message)
  | Return default =>
  let st := MkState (subscriptions st) (Some default) (messages st) in
  if existsSync pr then
    match isFile pr with
    | Throw message => (st, [], Some message)
    | Return true =>
        if accessSync pr
        then (report given
                (MkState (subscriptions st) (Some given) (messages st)) [],
              None)
        else (report given st [ConsoleLog], None)
    | Return false => (lookOnPath pr given st, None)
    end
  else (lookOnPath pr given st, None)
  end.

(** ** Strings *)

Lemma append_assoc (a b c : string) : (a ++ b) ++ c = a ++ (b ++ c).
Proof. induction a; simpl; congruence. Qed.

Lemma length_append (a b : string) :
  String.length (a ++ b) = String.length a + String.length b.
Proof. induction a; simpl; congruence. Qed.

Lemma append_inv_tail (a b t : string) : a ++ t = b ++ t -> a = b.
Proof.
  revert b; induction a as [|x a IH]; intros [|y b] H; simpl in H.
  - reflexivity.
  - apply (f_equal String.length) in H; simpl in H.
    rewrite length_append in H; lia.
  - apply (f_equal String.length) in H; simpl in H.
    rewrite length_append in H; lia.
  - injection H as -> H; f_equal; auto.
Qed.

Lemma endsWith_refl (s : string) : JS.endsWith s s = true.
Proof. destruct s; cbn [JS.endsWith]; rewrite String.eqb_refl; reflexivity. Qed.

Lemma endsWith_iff (s suffix : string) :
  JS.endsWith s suffix = true <-> exists front, s = front ++ suffix.
Proof.
  split.
  - induction s as [|c s IH]; cbn [JS.endsWith]; intros H.
    + rewrite orb_false_r in H. apply String.eqb_eq in H.
      exists EmptyString; assumption.
    + apply orb_true_iff in H as [H|H].
      * apply String.eqb_eq in H. exists EmptyString; assumption.
      * destruct (IH H) as [front ->]. exists (String c front); reflexivity.
  - intros [front ->]. induction front as [|c front IH].
    + apply endsWith_refl.
    + cbn [JS.endsWith append]. rewrite IH; apply orb_true_r.
Qed.

Lemma endsWith_append (front suffix : string) :
  JS.endsWith (front ++ suffix) suffix = true.
Proof. apply endsWith_iff; eauto. Qed.

Lemma endsWith_trans (s u v : string) :
  JS.endsWith s u = true -> JS.endsWith u v = true -> JS.endsWith s v = true.
Proof.
  rewrite !endsWith_iff; intros [a ->] [b ->].
  exists (a ++ b); symmetry; apply append_assoc.
Qed.

(** Two ends of one string: one of them is an end of the other. *)
Lemma endsWith_chain (s u v : string) :
  JS.endsWith s u = true -> JS.endsWith s v = true ->
  JS.endsWith u v = true \/ JS.endsWith v u = true.
Proof.
  induction s as [|c s IH]; cbn [JS.endsWith]; intros Hu Hv.
  - rewrite orb_false_r in Hu, Hv.
    apply String.eqb_eq in Hu, Hv; subst; left; reflexivity.
  - apply orb_true_iff in Hu as [Hu|Hu].
    + apply String.eqb_eq in Hu; subst u; left.
      cbn [JS.endsWith]; exact Hv.
    + apply orb_true_iff in Hv as [Hv|Hv].
      * apply String.eqb_eq in Hv; subst v; right.
        cbn [JS.endsWith]; rewrite Hu; apply orb_true_r.
      * auto.
Qed.


(** ** The file-name patterns *)

Lemma firstAlt_sound (alts : list string) (tl s a : string) :
  JS.firstAlt alts tl s = Some a -> In a alts /\ s = a ++ tl.
Proof.
  induction alts as [|b alts IH]; simpl; [discriminate|].
  destruct (String.eqb_spec s (b ++ tl)) as [->|_].
  - intros [= ->]; auto.
  - intros H; destruct (IH H); auto.
Qed.

Lemma firstAlt_complete (alts : list string) (tl a : string) :
  In a alts -> JS.firstAlt alts tl (a ++ tl) = Some a.
Proof.
  induction alts as [|b alts IH]; simpl; [tauto|].
  intros Hin. destruct (String.eqb_spec (a ++ tl) (b ++ tl)) as [E|N].
  - apply append_inv_tail in E; congruence.
  - destruct Hin as [->|Hin]; [congruence | auto].
Qed.

Lemma existsb_eqb_In (c : ascii) (l : list ascii) :
  existsb (Ascii.eqb c) l = true <-> In c l.
Proof.
  rewrite existsb_exists; split.
  - intros (x & Hx & E). apply Ascii.eqb_eq in E; congruence.
  - intros H; exists c; split; [assumption | apply Ascii.eqb_refl].
Qed.

(** What a match of a pattern says about the name. *)
Lemma exec_sound (P : Pattern) (s g1 g2 : string) :
  exec P s = Some (g1, g2) ->
  exists base sep, g1 = base ++ String sep EmptyString /\
                   Matches P s base sep g2.
Proof.
  unfold exec. revert g1; induction s as [|c s IH]; intros g1; simpl.
  - discriminate.
  - destruct (JS.isLineTerminator c) eqn:Hc;
      [| destruct (JS.stemAlt (seps P) (codes P) (tail P) s)
           as [[h1 h2]|] eqn:Hs ].
    2:{ intros [= <- <-].
        destruct (IH _ eq_refl) as (base & sep & -> & E & Hsep & Hcode & Hb).
        exists (String c base), sep; split; [reflexivity|].
        repeat split; auto.
        - simpl; congruence.
        - unfold JS.oneLine in *; simpl; rewrite Hc; exact Hb. }
    all: destruct (existsb (Ascii.eqb c) (seps P)) eqn:Hsep; [|discriminate];
      destruct (JS.firstAlt (codes P) (tail P) s) as [a|] eqn:Ha;
      [|discriminate]; simpl; intros [= <- <-];
      apply firstAlt_sound in Ha as [Hin ->];
      apply existsb_eqb_In in Hsep;
      exists EmptyString, c; repeat split; auto.
Qed.

Lemma Matches_length (P : Pattern) (k : nat) (s base code : string)
  (sep : ascii) :
  uniform k P -> Matches P s base sep code ->
  String.length s = String.length base + 1 + k + String.length (tail P).
Proof.
  intros U (-> & _ & Hc & _). apply U in Hc.
  rewrite length_append; simpl; rewrite length_append; lia.
Qed.

(** With codes of one length a name matches in one way only, and the
    regular expression finds it. *)
Lemma exec_complete (P : Pattern) (k : nat) (s base code : string)
  (sep : ascii) :
  uniform k P -> Matches P s base sep code ->
  exec P s = Some (base ++ String sep EmptyString, code).
Proof.
  intros U. revert s; induction base as [|c base IH];
    intros s (-> & Hsep & Hcode & Hb).
  - unfold exec; simpl.
    assert (N : JS.stemAlt (seps P) (codes P) (tail P) (code ++ tail P)
                = None).
    { destruct (JS.stemAlt _ _ _ _) as [[h1 h2]|] eqn:E; [|reflexivity].
      apply exec_sound in E as (b & x & _ & M).
      apply (Matches_length _ _ _ _ _ _ U) in M.
      rewrite length_append in M. apply U in Hcode. lia. }
    rewrite N. destruct (JS.isLineTerminator sep);
      (apply existsb_eqb_In in Hsep; rewrite Hsep;
       rewrite firstAlt_complete by assumption; reflexivity).
  - unfold JS.oneLine in Hb; simpl in Hb.
    apply andb_true_iff in Hb as [Hc Hb]. apply negb_true_iff in Hc.
    unfold exec in *; simpl. rewrite Hc.
    rewrite (IH (base ++ String sep (code ++ tail P))).
    + reflexivity.
    + repeat split; auto.
Qed.

Lemma Matches_ending (P : Pattern) (s base code : string) (sep : ascii) :
  Matches P s base sep code ->
  exists u, In u (endings P) /\ JS.endsWith s u = true.
Proof.
  intros (-> & Hsep & Hcode & _).
  exists (String sep (code ++ tail P)); split.
  - unfold endings. apply in_flat_map. exists sep; split; [assumption|].
    apply in_map_iff. exists code; auto.
  - apply endsWith_append.
Qed.

Lemma apart_Matches (P Q : Pattern) (s b1 c1 b2 c2 : string)
  (s1 s2 : ascii) :
  apart P Q = true ->
  Matches P s b1 s1 c1 -> Matches Q s b2 s2 c2 -> False.
Proof.
  intros A MP MQ.
  apply Matches_ending in MP as (u & Hu & Eu).
  apply Matches_ending in MQ as (v & Hv & Ev).
  unfold apart in A. rewrite forallb_forall in A.
  specialize (A u Hu). rewrite forallb_forall in A. specialize (A v Hv).
  apply andb_true_iff in A as [A1 A2].
  apply negb_true_iff in A1, A2.
  destruct (endsWith_chain s u v Eu Ev); congruence.
Qed.

Lemma apart_exec_None (P Q : Pattern) (s base code : string) (sep : ascii) :
  apart P Q = true -> Matches Q s base sep code -> exec P s = None.
Proof.
  intros A M. destruct (exec P s) as [[g1 g2]|] eqn:E; [|reflexivity].
  apply exec_sound in E as (b & x & _ & MP).
  destruct (apart_Matches _ _ _ _ _ _ _ _ _ A MP M).
Qed.

Lemma uniform_codePatterns (P : Pattern) :
  In P codePatterns -> exists k, uniform k P.
Proof.
  intros H; repeat (destruct H as [<-|H]); try contradiction;
    [exists 1 | exists 2 | exists 1 | exists 2 | exists 4];
    intros a Ha; simpl in Ha; intuition (subst; reflexivity).
Qed.

(** Every code of a pattern is the code of a stage. *)
Lemma lookup_codePatterns (P : Pattern) (code : string) :
  In P codePatterns -> In code (codes P) ->
  exists t, shaderTypeLookup (field P) code = Some t /\
            In t shaderTypes /\
            ShaderType.get (field P) t = Some code.
Proof.
  intros H Hc; repeat (destruct H as [<-|H]); try contradiction;
    simpl in Hc; repeat (destruct Hc as [<-|Hc]); try contradiction;
    (eexists; split; [vm_compute; reflexivity|];
     split; [simpl; tauto | reflexivity]).
Qed.


(** ** The classifier *)

Section ClassifierFacts.

Variables basename dirname : string -> string.

Local Abbreviation classify :=
  (extractShaderFilenameTokens basename dirname).

Ltac others_fail :=
  repeat match goal with
    | M : Matches ?Q ?s _ _ _ |- context [exec ?P ?s] =>
        rewrite (apart_exec_None P Q s _ _ _ (eq_refl true) M)
    end.

(** Which branch a matching name takes: the patterns exclude one
    another, so it is the branch of the pattern it matches. *)
Lemma classify_Matches (Q : Pattern) (f base code : string) (sep : ascii) :
  In Q codePatterns -> Matches Q (basename f) base sep code ->
  classify f =
  finish dirname f (base ++ String sep EmptyString)
         (shaderTypeLookup (field Q) code).
Proof.
  intros H M. destruct (uniform_codePatterns Q H) as [k U].
  pose proof (exec_complete Q k _ _ _ _ U M) as E.
  unfold extractShaderFilenameTokens.
  change char1glslRegex with (exec char1glsl).
  change char2glslRegex with (exec char2glsl).
  change char1shRegex with (exec char1sh).
  change char2Regex with (exec char2bare).
  change defaultRegex with (exec char4bare).
  repeat (destruct H as [<-|H]); try contradiction;
    rewrite E; others_fail; reflexivity.
Qed.

Lemma finish_found (f g1 : string) (t : ShaderType.t) :
  finish dirname f g1 (Some t) = Return (tokensOf dirname f g1 t).
Proof. unfold finish, tokensOf; destruct (JS.endsWith g1 "."); reflexivity. Qed.

(** The two outcomes of the classifier. *)
Lemma classify_cases (f : string) :
  (exists Q base sep code t,
      In Q codePatterns /\ Matches Q (basename f) base sep code /\
      shaderTypeLookup (field Q) code = Some t /\ In t shaderTypes /\
      classify f =
      Return (tokensOf dirname f (base ++ String sep EmptyString) t))
  \/
  ((forall Q base sep code,
       In Q codePatterns -> ~ Matches Q (basename f) base sep code) /\
   classify f = Throw "Unknown shader type").
Proof.
  assert (Hit : forall Q g1 g2, In Q codePatterns ->
                  exec Q (basename f) = Some (g1, g2) ->
          exists Q base sep code t,
            In Q codePatterns /\ Matches Q (basename f) base sep code /\
            shaderTypeLookup (field Q) code = Some t /\ In t shaderTypes /\
            classify f =
            Return
              (tokensOf dirname f (base ++ String sep EmptyString) t)).
  { intros Q g1 g2 HQ E.
    apply exec_sound in E as (base & sep & -> & M).
    destruct (lookup_codePatterns Q g2 HQ) as (t & L & Ht & _).
    { apply M. }
    exists Q, base, sep, g2, t; repeat split; try apply M; auto.
    rewrite (classify_Matches Q f base g2 sep HQ M), L.
    apply finish_found. }
  destruct (exec char1glsl (basename f)) as [[g1 g2]|] eqn:E1;
    [left; apply (Hit char1glsl g1 g2); simpl; tauto|].
  destruct (exec char2glsl (basename f)) as [[g1 g2]|] eqn:E2;
    [left; apply (Hit char2glsl g1 g2); simpl; tauto|].
  destruct (exec char1sh (basename f)) as [[g1 g2]|] eqn:E3;
    [left; apply (Hit char1sh g1 g2); simpl; tauto|].
  destruct (exec char2bare (basename f)) as [[g1 g2]|] eqn:E4;
    [left; apply (Hit char2bare g1 g2); simpl; tauto|].
  destruct (exec char4bare (basename f)) as [[g1 g2]|] eqn:E5;
    [left; apply (Hit char4bare g1 g2); simpl; tauto|].
  right; split.
  - intros Q base sep code HQ M.
    destruct (uniform_codePatterns Q HQ) as [k U].
    pose proof (exec_complete Q k _ _ _ _ U M) as E.
    repeat (destruct HQ as [<-|HQ]); try contradiction; congruence.
  - unfold extractShaderFilenameTokens.
    change char1glslRegex with (exec char1glsl).
    change char2glslRegex with (exec char2glsl).
    change char1shRegex with (exec char1sh).
    change char2Regex with (exec char2bare).
    change defaultRegex with (exec char4bare).
    rewrite E1, E2, E3, E4, E5; reflexivity.
Qed.

(** C2, as the program has it: the classifier throws "Unknown shader
    type" exactly when the last component of the file name matches none of
    the five patterns of the program, and returns tokens exactly when it
    matches one of them.  In the first two patterns the character in
    front of the stage code is a dot or an underscore. *)
Theorem classify_throws_iff_no_pattern (f : string) :
  (classify f = Throw "Unknown shader type" <->
   forall Q base sep code,
     In Q codePatterns -> ~ Matches Q (basename f) base sep code) /\
  ((exists tokens, classify f = Return tokens) <->
   exists Q base sep code,
     In Q codePatterns /\ Matches Q (basename f) base sep code).
Proof.
  destruct (classify_cases f)
    as [(Q & base & sep & code & t & HQ & M & _ & _ & E) | [N E]];
    rewrite E; (split; split).
  - discriminate.
  - intros H; destruct (H Q base sep code HQ M).
  - intros _; exists Q, base, sep, code; auto.
  - intros _; eauto.
  - intros _; exact N.
  - intros _; reflexivity.
  - intros [tokens H]; discriminate.
  - intros (Q & base & sep & code & HQ & M);
      destruct (N Q base sep code HQ M).
Qed.


End ClassifierFacts.

Lemma classify_throws_iff_no_pattern_witness :
  exists Q base sep code,
    In Q codePatterns /\ Matches Q "sky_tc.glsl" base sep code.
Proof.
  apply (proj1 (proj2 (classify_throws_iff_no_pattern
                         posix.basename posix.dirname "/src/sky_tc.glsl"))).
  eexists; reflexivity.
Defined.

(** C2 fails for a name with an underscore in front of the stage code: it
    fits none of the five conventions of the specification, and the
    classifier returns the vertex stage for it. *)
Lemma underscore_name_is_classified :
  ~ (exists P base sep code,
        In P specPatterns /\ Matches P "foo_v.glsl" base sep code) /\
  extractShaderFilenameTokens posix.basename posix.dirname "foo_v.glsl"
  = Return
      {| ShaderTokens.baseFilename := "foo_";
         ShaderTokens.baseShaderType := vertex;
         ShaderTokens.dirName := ".";
         ShaderTokens.outFilename := "foo_.vert";
         ShaderTokens.fullFilename := "foo_v.glsl" |}.
Proof.
  split; [|reflexivity].
  intros (P & base & sep & code & HP & M).
  apply Matches_ending in M as (u & Hu & E).
  repeat (destruct HP as [<-|HP]); try contradiction;
    simpl in Hu; repeat (destruct Hu as [<-|Hu]); try contradiction;
    discriminate E.
Qed.



(** C8: in [shaderTypes] there are six stages; no two have the same
    two-letter code, no two the same four-letter code, no two of those
    with a one-letter code the same one, and three have none. *)
Theorem stage_codes_distinct :
  List.length shaderTypes = 6 /\
  NoDup (map ShaderType.char2 shaderTypes) /\
  NoDup (map ShaderType.char4 shaderTypes) /\
  NoDup (flat_map (fun t => match ShaderType.char1 t with
                            | Some c => [c]
                            | None => []
                            end) shaderTypes) /\
  List.length (filter (fun t => match ShaderType.char1 t with
                                | Some _ => false
                                | None => true
                                end) shaderTypes) = 3.
Proof.
  repeat split; simpl;
    repeat (constructor; [simpl; intuition discriminate|]); constructor.
Qed.

(** ** The two regular expressions of the parser *)

Lemma span_append (p : ascii -> bool) (s a b : string) :
  JS.span p s = (a, b) -> s = a ++ b /\ JS.forallb p a = true.
Proof.
  revert a b; induction s as [|c s IH]; simpl; intros a b.
  - intros [= <- <-]; auto.
  - destruct (p c) eqn:Hc.
    + destruct (JS.span p s) as [a' b']. intros [= <- <-].
      destruct (IH _ _ eq_refl) as [-> H]; simpl; rewrite Hc; auto.
    + intros [= <- <-]; auto.
Qed.

(** A repetition that took something took a first character of the class. *)
Lemma span_first (p : ascii -> bool) (s a b : string) :
  JS.span p s = (a, b) -> a <> EmptyString ->
  exists c s', s = String c s' /\ p c = true.
Proof.
  destruct s as [|c s]; simpl.
  - intros [= <- <-] N; congruence.
  - destruct (p c) eqn:Hc.
    + eauto.
    + intros [= <- <-] N; congruence.
Qed.

(** The repetition stops at the first character outside the class. *)
Lemma span_stop (p : ascii -> bool) (a b : string) :
  JS.forallb p a = true ->
  match b with EmptyString => True | String c _ => p c = false end ->
  JS.span p (a ++ b) = (a, b).
Proof.
  intros Ha Hb; induction a as [|c a IH]; simpl in *.
  - destruct b as [|c b]; simpl; [reflexivity | rewrite Hb; reflexivity].
  - apply andb_true_iff in Ha as [Hc Ha]. rewrite Hc, (IH Ha); reflexivity.
Qed.

Lemma span_stop_at (p : ascii -> bool) (a b : string) (c : ascii) :
  JS.forallb p a = true -> p c = false ->
  JS.span p (a ++ String c b) = (a, String c b).
Proof. intros Ha Hc; apply span_stop; assumption. Qed.

Lemma literal_iff (lit s rest : string) :
  JS.literal lit s = Some rest <-> s = lit ++ rest.
Proof.
  revert s; induction lit as [|a lit IH]; intros s; simpl.
  - split; congruence.
  - destruct s as [|b s]; [split; discriminate|].
    destruct (Ascii.eqb_spec a b) as [->|N].
    + rewrite IH; split; congruence.
    + split; [discriminate | congruence].
Qed.

Lemma compileRegex_iff (line g1 g2 g3 g4 : string) :
  compileRegex line = Some (g1, g2, g3, g4) <-> CompileLine line g1 g2 g3 g4.
Proof.
  unfold compileRegex, CompileLine; split.
  - destruct (JS.span isSeverityChar line) as [a r1] eqn:S1.
    destruct (String.eqb_spec a EmptyString) as [|N1]; [discriminate|].
    destruct (JS.literal ": " r1) as [r2|] eqn:L1; [|discriminate].
    destruct (JS.span JS.isDigit r2) as [b r3] eqn:S2.
    destruct (String.eqb_spec b EmptyString) as [|N2]; [discriminate|].
    destruct (JS.literal ":" r3) as [r4|] eqn:L2; [|discriminate].
    destruct (JS.span JS.isDigit r4) as [c r5] eqn:S3.
    destruct (String.eqb_spec c EmptyString) as [|N3]; [discriminate|].
    destruct (JS.literal ": " r5) as [g|] eqn:L3; [|discriminate].
    destruct (JS.oneLine g) eqn:O; [|discriminate].
    intros [= <- <- <- <-].
    apply span_append in S1 as [-> F1], S2 as [-> F2], S3 as [-> F3].
    apply literal_iff in L1, L2, L3. subst r1 r3 r5.
    repeat split; auto.
  - intros (-> & N1 & F1 & N2 & F2 & N3 & F3 & O). cbn [append].
    rewrite (span_stop_at isSeverityChar g1 _ ":" F1 (eq_refl false)).
    rewrite (proj2 (String.eqb_neq g1 EmptyString) N1).
    cbn [JS.literal Ascii.eqb Bool.eqb].
    rewrite (span_stop_at JS.isDigit g2 _ ":" F2 (eq_refl false)).
    rewrite (proj2 (String.eqb_neq g2 EmptyString) N2).
    cbn [JS.literal Ascii.eqb Bool.eqb].
    rewrite (span_stop_at JS.isDigit g3 _ ":" F3 (eq_refl false)).
    rewrite (proj2 (String.eqb_neq g3 EmptyString) N3).
    cbn [JS.literal Ascii.eqb Bool.eqb].
    rewrite O; reflexivity.
Qed.

Lemma linkRegex_iff (typeName line g1 g2 : string) :
  linkRegex typeName line = Some (g1, g2) <-> LinkLine typeName line g1 g2.
Proof.
  unfold linkRegex, LinkLine; split.
  - destruct (JS.span isSeverityChar line) as [a r1] eqn:S1.
    destruct (String.eqb_spec a EmptyString) as [|N1]; [discriminate|].
    destruct (JS.literal _ r1) as [g|] eqn:L1; [|discriminate].
    destruct (JS.oneLine g) eqn:O; [|discriminate].
    intros [= <- <-].
    apply span_append in S1 as [-> F1]. apply literal_iff in L1. subst r1.
    rewrite !append_assoc. repeat split; auto.
  - intros (-> & N1 & F1 & O). cbn [append].
    rewrite (span_stop_at isSeverityChar g1 _ ":" F1 (eq_refl false)).
    rewrite (proj2 (String.eqb_neq g1 EmptyString) N1).
    rewrite (proj2 (literal_iff (": Linking " ++ typeName ++ " stage: ")
                      _ g2)).
    + rewrite O; reflexivity.
    + rewrite !append_assoc; reflexivity.
Qed.

(** No line is accepted by both patterns: after the severity word and the
    colon one wants a digit, the other the letter L. *)
Lemma compile_link_exclusive (typeName line : string) :
  compileRegex line <> None -> linkRegex typeName line = None.
Proof.
  intros C. destruct (compileRegex line) as [[[[c1 c2] c3] c4]|] eqn:EC;
    [clear C | congruence].
  destruct (linkRegex typeName line) as [[l1 l2]|] eqn:EL; [|reflexivity].
  exfalso. unfold compileRegex, linkRegex in *.
  destruct (JS.span isSeverityChar line) as [a r1].
  destruct (a =? EmptyString); [discriminate|].
  destruct (JS.literal ": " r1) as [r2|] eqn:L1; [|discriminate].
  apply literal_iff in L1; subst r1.
  destruct (JS.span JS.isDigit r2) as [b r3] eqn:S2.
  destruct (String.eqb_spec b EmptyString) as [|N2]; [discriminate|].
  destruct (span_first _ _ _ _ S2 N2) as (d & r & -> & D).
  destruct (JS.literal (": Linking " ++ typeName ++ " stage: ") _)
    as [g|] eqn:L2 in EL; [|discriminate].
  apply literal_iff in L2. cbn [append] in L2. injection L2 as -> _.
  discriminate D.
Qed.

(** ** Numbers *)

Lemma isDigit_value (c : ascii) :
  JS.isDigit c = true -> (0 <= Z.of_N (JS.code c) - 48 <= 9)%Z.
Proof.
  unfold JS.isDigit, JS.between. intros H.
  apply andb_true_iff in H as [H1 H2].
  apply N.leb_le in H1, H2. lia.
Qed.

Lemma decimal_nonneg (g : string) :
  JS.forallb JS.isDigit g = true -> (0 <= decimal g)%Z.
Proof.
  induction g as [|c g IH]; simpl; [lia|]. intros H.
  apply andb_true_iff in H as [Hc Hg]. apply isDigit_value in Hc.
  specialize (IH Hg). unfold JS.code in Hc.
  assert (0 <= 10 ^ Z.of_nat (String.length g))%Z by (apply Z.pow_nonneg; lia).
  nia.
Qed.

(** Reading the digits from the left, times ten and plus the digit, gives
    the number they write. *)
Lemma digitsFrom_decimal (g : string) (a : Z) :
  JS.forallb JS.isDigit g = true ->
  JS.digitsFrom (Some a) g
  = Some (a * 10 ^ Z.of_nat (String.length g) + decimal g)%Z.
Proof.
  revert a; induction g as [|c g IH]; intros a;
    cbn [JS.digitsFrom JS.forallb decimal String.length].
  - intros _; f_equal; cbn; lia.
  - intros H. apply andb_true_iff in H as [Hc Hg]. rewrite Hc, (IH _ Hg).
    f_equal. unfold JS.code.
    rewrite Nat2Z.inj_succ, Z.pow_succ_r by lia. ring.
Qed.

Lemma parseInt_digit_first (c : ascii) (g : string) :
  JS.isDigit c = true ->
  JS.parseInt (String c g)
  = option_map JS.nearestDouble (JS.digitsFrom None (String c g)).
Proof.
  intros Hc.
  destruct c as [[] [] [] [] [] [] [] []];
    vm_compute in Hc; try discriminate Hc; reflexivity.
Qed.

(** [parseInt] on a group [\d+] is the double nearest to the number the
    digits write. *)
Lemma parseInt_decimal (g : string) :
  g <> EmptyString -> JS.forallb JS.isDigit g = true ->
  JS.parseInt g = Some (JS.nearestDouble (decimal g)) /\
  (0 <= decimal g)%Z.
Proof.
  intros N H. split; [|apply decimal_nonneg; exact H].
  destruct g as [|c g]; [congruence|]. simpl in H.
  apply andb_true_iff in H as [Hc Hg].
  rewrite (parseInt_digit_first c g Hc). cbn [JS.digitsFrom]. rewrite Hc.
  rewrite (digitsFrom_decimal g _ Hg). cbn [option_map decimal].
  unfold JS.code. reflexivity.
Qed.

Lemma nearestDouble_nonNeg (z : Z) : (0 <= z)%Z -> nonNeg (JS.nearestDouble z).
Proof.
  intros Hz. unfold JS.nearestDouble.
  destruct (z <? 2 ^ 53)%Z; [exact Hz|].
  match goal with |- context [if ?b then (?q + 1)%Z else ?q] =>
    set (q' := if b then (q + 1)%Z else q);
    assert (0 <= q')%Z
      by (pose proof (proj2 (Z.shiftr_nonneg z (Z.log2 z - 52)) Hz);
          subst q'; destruct b; lia)
  end.
  destruct (Z.shiftl q' (Z.log2 z - 52) <? 2 ^ 1024)%Z; [|reflexivity].
  simpl. apply Z.shiftl_nonneg; assumption.
Qed.

Lemma zeroBased_nonNeg (n : option JS.number) : nonNeg (JS.zeroBased n).
Proof.
  destruct n as [[z|[|]]|]; simpl; try lia; try reflexivity.
  destruct (Z.ltb_spec 0 z); [|simpl; lia].
  apply nearestDouble_nonNeg; lia.
Qed.

(** Below 2^53 the doubles are exact: the zero-based number is the
    reported one less one, and zero for zero. *)
Lemma zeroBased_PointOf (v : Z) :
  (0 <= v)%Z -> PointOf v (JS.zeroBased (Some (JS.nearestDouble v))).
Proof.
  intros Hv. split; [apply zeroBased_nonNeg|]. intros B.
  unfold JS.nearestDouble. rewrite (proj2 (Z.ltb_lt v (2 ^ 53)) B).
  cbn [JS.zeroBased]. destruct (Z.ltb_spec 0 v).
  - unfold JS.nearestDouble.
    rewrite (proj2 (Z.ltb_lt (v - 1) (2 ^ 53))) by lia. f_equal; lia.
  - f_equal; lia.
Qed.

(** ** The loops of the parser *)

Lemma forEachLine_eq (n : nat) (s : Shader.t) (r : Range) (started : bool)
  (acc : list LintResult.t) (line : string) :
  forEachLine n s r (started, acc) line
  = (nextStarted n s started line,
     (acc ++ compilePart n s started line ++ linkPart s r line)%list).
Proof.
  unfold forEachLine, nextStarted, compilePart, linkPart.
  destruct (JS.endsWith line (Shader.name s));
    [| destruct (started || (n =? 1)%nat);
       [destruct (compileRegex line)|] ];
    destruct (linkRegex _ line);
    rewrite ?app_nil_r, <- ?app_assoc; reflexivity.
Qed.

Lemma fold_forEachLine (n : nat) (s : Shader.t) (r : Range)
  (lines : list string) (started : bool) (acc : list LintResult.t) :
  fold_left (forEachLine n s r) lines (started, acc)
  = (fold_left (nextStarted n s) lines started,
     (acc ++ scan n s r started lines)%list).
Proof.
  revert started acc; induction lines as [|line lines IH];
    intros started acc; cbn [fold_left scan].
  - rewrite app_nil_r; reflexivity.
  - rewrite forEachLine_eq, IH, <- !app_assoc; reflexivity.
Qed.

Lemma forEachShader_eq (p : os.platform) (n : nat) (output : string)
  (r : Range) (acc : list LintResult.t) (s : Shader.t) :
  forEachShader p n output r acc s
  = (acc ++ scan n s r false (JS.split output (os.EOL p)))%list.
Proof. unfold forEachShader; rewrite fold_forEachLine; reflexivity. Qed.

(** The result is, shader after shader, what the lines give for it. *)
Lemma parse_flat_map (p : os.platform) (inputs : list Shader.t)
  (output : string) (r : Range) :
  parseGlslValidatorResponse p inputs output r
  = flat_map
      (fun s => scan (List.length inputs) s r false
                     (JS.split output (os.EOL p)))
      inputs.
Proof.
  unfold parseGlslValidatorResponse. generalize (List.length inputs) as n.
  intros n. rewrite <- (app_nil_l (flat_map _ inputs)).
  generalize (@nil LintResult.t) as acc.
  induction inputs as [|s inputs IH]; intros acc; cbn [fold_left flat_map].
  - rewrite app_nil_r; reflexivity.
  - rewrite IH, forEachShader_eq, <- app_assoc; reflexivity.
Qed.

(** A diagnostic of a scan comes from one line, read with the flag the
    lines before it left. *)
Lemma In_scan (n : nat) (s : Shader.t) (r : Range) (d : LintResult.t)
  (lines : list string) (started : bool) :
  In d (scan n s r started lines) <->
  exists before line rest,
    lines = (before ++ line :: rest)%list /\
    In d (compilePart n s (fold_left (nextStarted n s) before started) line
          ++ linkPart s r line)%list.
Proof.
  revert started; induction lines as [|l lines IH]; intros started;
    cbn [scan].
  - split; [intros []|]. intros (b & x & y & E & _).
    destruct b; discriminate.
  - rewrite app_assoc, in_app_iff, IH. split.
    + intros [H | (b & x & y & -> & H)].
      * exists [], l, lines; auto.
      * exists (l :: b), x, y; auto.
    + intros ([|l' b] & x & y & E & H); simpl in E; injection E as -> ->.
      * left; exact H.
      * right; exists b, x, y; auto.
Qed.

Lemma In_parse (p : os.platform) (inputs : list Shader.t) (output : string)
  (r : Range) (d : LintResult.t) :
  In d (parseGlslValidatorResponse p inputs output r) <->
  exists s before line rest,
    In s inputs /\
    JS.split output (os.EOL p) = (before ++ line :: rest)%list /\
    In d (compilePart (List.length inputs) s
            (fold_left (nextStarted (List.length inputs) s) before false)
            line
          ++ linkPart s r line)%list.
Proof.
  rewrite parse_flat_map, in_flat_map. split.
  - intros (s & Hs & H). apply In_scan in H as (b & l & t & E & H).
    exists s, b, l, t; auto.
  - intros (s & b & l & t & Hs & E & H). exists s; split; [assumption|].
    apply In_scan. exists b, l, t; auto.
Qed.

(** One shader and an output of one line, which the compile pattern
    accepts and which does not end with the name of the shader. *)
Lemma parse_one_line (p : os.platform) (s : Shader.t) (r : Range)
  (line : string) (m : string * string * string * string) :
  JS.split line (os.EOL p) = [line] ->
  JS.endsWith line (Shader.name s) = false ->
  compileRegex line = Some m ->
  parseGlslValidatorResponse p [s] line r = [compileResult s m].
Proof.
  intros L H C. rewrite parse_flat_map. cbn [flat_map List.length].
  rewrite L. cbn [scan]. unfold compilePart, linkPart.
  rewrite H, C, compile_link_exclusive by congruence.
  rewrite orb_true_r; reflexivity.
Qed.

(** ** Shader records built from the classifier *)

Lemma Classified_name (s : Shader.t) :
  Classified s ->
  builtin s /\
  exists stem,
    Shader.name s = stem ++ "." ++ ShaderType.char4 (Shader.type s).
Proof.
  intros (basename & dirname & f & tokens & E & N & T).
  destruct (classify_cases basename dirname f)
    as [(Q & base & sep & code & t & _ & _ & _ & Ht & E') | [_ E']];
    rewrite E' in E; [|discriminate].
  injection E as <-. unfold builtin. rewrite N, T. simpl. split; [exact Ht|].
  destruct (JS.endsWith (base ++ String sep EmptyString) ".") eqn:D.
  - apply endsWith_iff in D as [front ->].
    exists front; apply append_assoc.
  - exists (base ++ String sep EmptyString); apply append_assoc.
Qed.

(** A line that ends with no four-letter code after a dot is not a header
    line of a classified shader. *)
Lemma Classified_not_header (line : string) (s : Shader.t) :
  List.forallb
    (fun t => negb (JS.endsWith line ("." ++ ShaderType.char4 t)))
    shaderTypes = true ->
  Classified s -> JS.endsWith line (Shader.name s) = false.
Proof.
  intros A C. destruct (Classified_name s C) as [B [stem N]].
  destruct (JS.endsWith line (Shader.name s)) eqn:E; [|reflexivity].
  rewrite forallb_forall in A. specialize (A _ B).
  apply negb_true_iff in A. rewrite <- A. symmetry.
  apply (endsWith_trans _ _ _ E). rewrite N. apply endsWith_append.
Qed.


Lemma aFrag_Classified : Classified aFrag.
Proof.
  exists posix.basename, posix.dirname, "/src/a.fs.glsl".
  eexists; split; [reflexivity|]; split; reflexivity.
Qed.

(** ** The parser *)

(** A batch of two shaders: the warning before the header of [a.frag] is
    dropped, the empty line ends its section, and the header of [b.vert]
    opens the next one. *)
Lemma two_shader_batch (p : os.platform) :
  parseGlslValidatorResponse p [aFrag; bVert]
    (outputOf p
       [ "WARNING: 0:1: before any header";
         "a.frag";
         "ERROR: 0:12: 'x' : undeclared identifier";
         EmptyString;
         "ERROR: 0:13: after the section";
         "b.vert";
         "Info: 7:8:  unused  " ])
    firstRow
  = [ {| LintResult.severity := "error";
         LintResult.excerpt := "'x' : undeclared identifier";
         LintResult.location :=
           {| LintResult.file := Some "/src/a.fs.glsl";
              LintResult.position := 
                ((JS.Int 11, JS.Int 0), (JS.Int 11, JS.Int 0)) |} |};
      {| LintResult.severity := "info";
         LintResult.excerpt := "unused";
         LintResult.location :=
           {| LintResult.file := Some "/src/b.vsh";
              LintResult.position := 
                ((JS.Int 7, JS.Int 6), (JS.Int 7, JS.Int 6)) |} |} ].
Proof. destruct p; reflexivity. Qed.

(** C1: for one submitted shader and the one line
    [ERROR: 3:5: undefined variable 'x'] the result is one diagnostic:
    severity error, that message, the path of the shader, and the point
    line 4, column 2 at both ends; the first number of the line is the
    column and the second the line, each less one. *)
Theorem parse_single_error_line (p : os.platform) (shader : Shader.t)
  (r : Range) :
  Classified shader ->
  parseGlslValidatorResponse p [shader]
    "ERROR: 3:5: undefined variable 'x'" r
  = [ {| LintResult.severity := "error";
         LintResult.excerpt := "undefined variable 'x'";
         LintResult.location :=
           {| LintResult.file := Shader.fullFilename shader;
              LintResult.position := 
                ((JS.Int 4, JS.Int 2), (JS.Int 4, JS.Int 2)) |} |} ].
Proof.
  intros C.
  rewrite (parse_one_line p shader r _
             ("ERROR", "3", "5", "undefined variable 'x'")).
  - reflexivity.
  - destruct p; reflexivity.
  - apply Classified_not_header; [reflexivity | exact C].
  - reflexivity.
Qed.

Lemma parse_single_error_line_witness :
  parseGlslValidatorResponse os.win32 [aFrag]
    "ERROR: 3:5: undefined variable 'x'" firstRow
  = [ {| LintResult.severity := "error";
         LintResult.excerpt := "undefined variable 'x'";
         LintResult.location :=
           {| LintResult.file := Some "/src/a.fs.glsl";
              LintResult.position := 
                ((JS.Int 4, JS.Int 2), (JS.Int 4, JS.Int 2)) |} |} ].
Proof.
  exact (parse_single_error_line os.win32 aFrag firstRow aFrag_Classified).
Defined.






(** Where a diagnostic of the result comes from: a shader and a line, in
    the compile branch or in the link test. *)
Lemma In_compilePart (n : nat) (s : Shader.t) (started : bool)
  (line : string) (d : LintResult.t) :
  In d (compilePart n s started line) ->
  JS.endsWith line (Shader.name s) = false /\
  exists m, compileRegex line = Some m /\ d = compileResult s m.
Proof.
  unfold compilePart.
  destruct (JS.endsWith line (Shader.name s)); [intros []|].
  destruct (started || (n =? 1)%nat); [|intros []].
  destruct (compileRegex line) as [m|]; [|intros []].
  intros [<-|[]]; eauto.
Qed.

Lemma In_linkPart (s : Shader.t) (r : Range) (line : string)
  (d : LintResult.t) :
  In d (linkPart s r line) ->
  exists m, linkRegex (ShaderType.name (Shader.type s)) line = Some m /\
            d = linkResult s r m.
Proof.
  unfold linkPart. destruct (linkRegex _ line) as [m|]; [|intros []].
  intros [<-|[]]; eauto.
Qed.

Lemma parse_origin (p : os.platform) (inputs : list Shader.t)
  (output : string) (r : Range) (d : LintResult.t) :
  In d (parseGlslValidatorResponse p inputs output r) ->
  exists s line,
    In s inputs /\ In line (JS.split output (os.EOL p)) /\
    ((JS.endsWith line (Shader.name s) = false /\
      exists m, compileRegex line = Some m /\ d = compileResult s m) \/
     (exists m, linkRegex (ShaderType.name (Shader.type s)) line = Some m /\
                d = linkResult s r m)).
Proof.
  intros H. apply In_parse in H as (s & before & line & rest & Hs & E & H).
  exists s, line. rewrite E. repeat split; auto.
  - apply in_or_app; right; left; reflexivity.
  - apply in_app_or in H as [H|H].
    + left; eapply In_compilePart; eassumption.
    + right; eapply In_linkPart; eassumption.
Qed.

Lemma includes_iff (l : list string) (s : string) :
  JS.includes l s = true <-> In s l.
Proof.
  unfold JS.includes. rewrite existsb_exists. split.
  - intros (x & Hx & E). apply String.eqb_eq in E; congruence.
  - intros H; exists s; split; [assumption | apply String.eqb_refl].
Qed.

(** The severity of a word: the word in small letters when that is one of
    the three severities, and warning otherwise. *)
Lemma getSeverity_cases (word : string) :
  (exists v, In v VALID_SEVERITY /\ sameIgnoringCase word v /\
             v = JS.toLowerCase word /\ getSeverity word = v) \/
  ((forall v, In v VALID_SEVERITY -> ~ sameIgnoringCase word v) /\
   getSeverity word = "warning").
Proof.
  unfold getSeverity, sameIgnoringCase.
  destruct (JS.includes VALID_SEVERITY (JS.toLowerCase word)) eqn:I.
  - left. apply includes_iff in I. exists (JS.toLowerCase word).
    repeat split; auto.
    simpl in I; destruct I as [I|[I|[I|[]]]]; rewrite <- I; reflexivity.
  - right. split; [|reflexivity]. intros v Hv E.
    assert (In (JS.toLowerCase word) VALID_SEVERITY) as Hw.
    { rewrite E. simpl in Hv; destruct Hv as [<-|[<-|[<-|[]]]];
        simpl; tauto. }
    apply includes_iff in Hw; congruence.
Qed.

(** C9: the parser is a total function of its arguments.  A line that
    neither pattern accepts adds nothing for a shader; every diagnostic of
    the result comes from a line that one of the two patterns accepts; and
    an empty output gives no diagnostic. *)
Theorem unmatched_lines_ignored (p : os.platform) (inputs : list Shader.t)
  (r : Range) :
  Forall builtin inputs ->
  (forall s n started acc line,
      In s inputs ->
      compileRegex line = None ->
      linkRegex (ShaderType.name (Shader.type s)) line = None ->
      snd (forEachLine n s r (started, acc) line) = acc) /\
  (forall output d,
      In d (parseGlslValidatorResponse p inputs output r) ->
      exists s line,
        In s inputs /\ In line (JS.split output (os.EOL p)) /\
        (compileRegex line <> None \/
         linkRegex (ShaderType.name (Shader.type s)) line <> None)) /\
  parseGlslValidatorResponse p inputs EmptyString r = [].
Proof.
  intros _. split; [|split].
  - intros s n started acc line _ C L.
    rewrite forEachLine_eq. cbn [snd]. unfold compilePart, linkPart.
    rewrite C, L.
    destruct (JS.endsWith line (Shader.name s));
      [| destruct (started || (n =? 1)%nat)];
      rewrite !app_nil_r; reflexivity.
  - intros output d H.
    apply parse_origin in H
      as (s & line & Hs & Hl & [(_ & m & C & _) | (m & L & _)]);
      exists s, line; repeat split; auto; [left | right]; congruence.
  - rewrite parse_flat_map. generalize (List.length inputs) as n; intros n.
    induction inputs as [|s inputs IH]; [reflexivity|].
    cbn [flat_map]. rewrite IH. cbn [JS.split JS.splitFrom JS.rev scan].
    unfold compilePart, linkPart.
    change (compileRegex EmptyString) with
      (@None (string * string * string * string)).
    change (linkRegex (ShaderType.name (Shader.type s)) EmptyString) with
      (@None (string * string)).
    destruct (JS.endsWith EmptyString (Shader.name s));
      [| destruct (false || (n =? 1)%nat)]; reflexivity.
Qed.

Lemma unmatched_lines_ignored_witness :
  parseGlslValidatorResponse os.win32 [aFrag; bVert] EmptyString firstRow
  = [].
Proof.
  refine (proj2 (proj2 (unmatched_lines_ignored os.win32 [aFrag; bVert]
                          firstRow _))).
  constructor; [right; left; reflexivity|].
  constructor; [left; reflexivity | constructor].
Defined.

(** C10: for any number of shaders, a line that ends with the name of a
    shader puts the flag of that shader up and adds nothing but what the
    link test gives, whether the compile pattern accepts the line or not.
    So a header line of the compile pattern is not reported, and a header
    line of the link pattern is. *)
Theorem header_line_only_starts_section :
  (forall n s r started acc line,
      builtin s ->
      JS.endsWith line (Shader.name s) = true ->
      forEachLine n s r (started, acc) line
      = (true, (acc ++ linkPart s r line)%list)) /\
  (compileRegex "ERROR: 0:1: cannot open a.frag" <> None /\
   parseGlslValidatorResponse os.posix [aFrag]
     "ERROR: 0:1: cannot open a.frag" firstRow = []) /\
  parseGlslValidatorResponse os.posix [aFrag]
    "ERROR: Linking fragment stage: no main in a.frag" firstRow
  = [ {| LintResult.severity := "error";
         LintResult.excerpt := "no main in a.frag";
         LintResult.location :=
           {| LintResult.file := Some "/src/a.fs.glsl";
              LintResult.position := firstRow |} |} ].
Proof.
  split; [|split; [split; [discriminate | reflexivity] | reflexivity]].
  intros n s r started acc line _ H.
  rewrite forEachLine_eq. unfold nextStarted, compilePart.
  rewrite H; reflexivity.
Qed.

Lemma header_line_only_starts_section_witness :
  forEachLine 2 aFrag firstRow (false, []) "a.frag" = (true, []).
Proof.
  refine (proj1 header_line_only_starts_section 2 aFrag firstRow false []
            "a.frag" _ _).
  - right; left; reflexivity.
  - reflexivity.
Defined.

(** ** Further properties: the stage table and the severity *)

Lemma hd_error_In (A : Type) (l : list A) (x : A) :
  hd_error l = Some x -> In x l.
Proof. destruct l; simpl; [discriminate | intros [= ->]; auto]. Qed.

(** X1: a lookup by any field finds a stage exactly when that stage is in
    the table and has the value in that field, and finds nothing exactly
    when no stage of the table has it; so looking up the code of a stage
    gives the stage back. *)
Theorem shaderTypeLookup_iff (k : ShaderType.key) (v : string) :
  (forall t,
      shaderTypeLookup k v = Some t <->
      In t shaderTypes /\ ShaderType.get k t = Some v) /\
  (shaderTypeLookup k v = None <->
   forall t, In t shaderTypes -> ShaderType.get k t <> Some v).
Proof.
  assert (A : forall t,
      shaderTypeLookup k v = Some t <->
      In t shaderTypes /\ ShaderType.get k t = Some v).
  { intros t; split.
    - unfold shaderTypeLookup. intros H. apply hd_error_In in H.
      apply filter_In in H as [H G]. split; [exact H|].
      destruct (ShaderType.get k t) as [w|]; [|discriminate].
      apply String.eqb_eq in G; congruence.
    - intros [H G]. simpl in H.
      repeat (destruct H as [<-|H]); try contradiction;
        destruct k; simpl in G; try discriminate;
        injection G as <-; reflexivity. }
  split; [exact A|]. split.
  - intros N t H G. rewrite (proj2 (A t) (conj H G)) in N; discriminate.
  - intros N. destruct (shaderTypeLookup k v) as [t|] eqn:E; [|reflexivity].
    destruct (proj1 (A t) eq_refl) as [H G]. destruct (N t H G).
Qed.




(** ** Further properties: the classifier *)

Lemma append_char_inj (a b : string) (x y : ascii) :
  a ++ String x EmptyString = b ++ String y EmptyString -> a = b /\ x = y.
Proof.
  revert b; induction a as [|c a IH]; intros [|d b] H; simpl in H.
  - injection H as ->; auto.
  - injection H as -> H. destruct b; discriminate.
  - injection H as -> H. destruct a; discriminate.
  - injection H as -> H. destruct (IH b H) as [-> ->]; auto.
Qed.

(** X3: the classifier returns tokens or throws "Unknown shader type",
    and nothing else: every code a pattern can capture is the code of a
    stage, so the stage it looks up is never missing. *)
Theorem classifier_outcomes (basename dirname : string -> string)
  (f : string) :
  (exists tokens,
      extractShaderFilenameTokens basename dirname f = Return tokens /\
      In (ShaderTokens.baseShaderType tokens) shaderTypes) \/
  extractShaderFilenameTokens basename dirname f
  = Throw "Unknown shader type".
Proof.
  destruct (classify_cases basename dirname f)
    as [(Q & base & sep & code & t & _ & _ & _ & Ht & E) | [_ E]].
  - left. eexists; split; [exact E | exact Ht].
  - right; exact E.
Qed.

(** X4: a file name matches at most one of the five patterns, and that
    one in a single way; the order in which the classifier asks them
    decides nothing. *)
Theorem patterns_exclusive (s b1 b2 c1 c2 : string) (s1 s2 : ascii)
  (Q1 Q2 : Pattern) :
  In Q1 codePatterns -> In Q2 codePatterns ->
  Matches Q1 s b1 s1 c1 -> Matches Q2 s b2 s2 c2 ->
  Q1 = Q2 /\ b1 = b2 /\ s1 = s2 /\ c1 = c2.
Proof.
  intros H1 H2 M1 M2.
  assert (Same : forall Q, In Q codePatterns ->
            Matches Q s b1 s1 c1 -> Matches Q s b2 s2 c2 ->
            b1 = b2 /\ s1 = s2 /\ c1 = c2).
  { intros Q HQ N1 N2. destruct (uniform_codePatterns Q HQ) as [k U].
    pose proof (exec_complete Q k _ _ _ _ U N1) as E1.
    pose proof (exec_complete Q k _ _ _ _ U N2) as E2.
    rewrite E1 in E2. injection E2 as E ->.
    apply append_char_inj in E as [-> ->]; auto. }
  repeat (destruct H1 as [<-|H1]); try contradiction;
    repeat (destruct H2 as [<-|H2]); try contradiction;
    try (exfalso;
         refine (apart_Matches _ _ _ _ _ _ _ _ _ _ M1 M2); reflexivity).
  all: split; [reflexivity|].
  all: refine (Same _ _ M1 M2); simpl; tauto.
Qed.

Lemma patterns_exclusive_witness :
  char2glsl = char2glsl /\ "sky" = "sky" /\ "_"%char = "_"%char /\
  "tc" = "tc".
Proof.
  refine (patterns_exclusive "sky_tc.glsl" "sky" "sky" "tc" "tc" "_" "_"
            char2glsl char2glsl _ _ _ _).
  - simpl; tauto.
  - simpl; tauto.
  - repeat split; simpl; tauto.
  - repeat split; simpl; tauto.
Defined.

Lemma append_empty_r (s : string) : s ++ EmptyString = s.
Proof. induction s; simpl; congruence. Qed.

Lemma oneLine_append (a b : string) :
  JS.oneLine (a ++ b) = JS.oneLine a && JS.oneLine b.
Proof.
  unfold JS.oneLine. induction a as [|c a IH]; simpl; [reflexivity|].
  rewrite IH; apply andb_assoc.
Qed.

(** X5: the tokens of a classified file: the full name and the directory
    are those of the argument; the base, a code of one of the five
    patterns and the tail of that pattern make up the last component of
    the name; the stage is in the table and has that code in the field of
    the pattern; and the output name is the base and the four-letter code
    of the stage, with a dot between them exactly when the base does not
    end with one. *)
Theorem tokens_of_classified_file (basename dirname : string -> string)
  (f : string) (tokens : ShaderTokens.t) :
  extractShaderFilenameTokens basename dirname f = Return tokens ->
  ShaderTokens.fullFilename tokens = f /\
  ShaderTokens.dirName tokens = dirname f /\
  In (ShaderTokens.baseShaderType tokens) shaderTypes /\
  (exists Q code,
      In Q codePatterns /\ In code (codes Q) /\
      basename f = ShaderTokens.baseFilename tokens ++ code ++ tail Q /\
      ShaderType.get (field Q) (ShaderTokens.baseShaderType tokens)
      = Some code) /\
  ((JS.endsWith (ShaderTokens.baseFilename tokens) "." = true /\
    ShaderTokens.outFilename tokens
    = ShaderTokens.baseFilename tokens
      ++ ShaderType.char4 (ShaderTokens.baseShaderType tokens)) \/
   (JS.endsWith (ShaderTokens.baseFilename tokens) "." = false /\
    ShaderTokens.outFilename tokens
    = ShaderTokens.baseFilename tokens ++ "."
      ++ ShaderType.char4 (ShaderTokens.baseShaderType tokens))).
Proof.
  intros E.
  destruct (classify_cases basename dirname f)
    as [(Q & base & sep & code & t & HQ & M & L & Ht & E') | [_ E']];
    rewrite E' in E; [|discriminate].
  injection E as <-. cbn [tokensOf ShaderTokens.fullFilename
    ShaderTokens.dirName ShaderTokens.baseShaderType
    ShaderTokens.baseFilename ShaderTokens.outFilename].
  repeat split; auto.
  - exists Q, code. pose proof M as (Ef & _ & Hc & _).
    repeat split; auto.
    + rewrite Ef, append_assoc; reflexivity.
    + destruct (lookup_codePatterns Q code HQ Hc) as (t' & L' & _ & G).
      congruence.
  - destruct (JS.endsWith (base ++ String sep EmptyString) ".") eqn:D.
    + left; auto.
    + right; split; [reflexivity | apply append_assoc].
Qed.

Lemma tokens_of_classified_file_witness :
  (exists Q code,
      In Q codePatterns /\ In code (codes Q) /\
      posix.basename "/src/water_gs.glsl" = "water_" ++ code ++ tail Q /\
      ShaderType.get (field Q) geometry = Some code) /\
  ((JS.endsWith "water_" "." = true /\
    "water_.geom" = "water_" ++ ShaderType.char4 geometry) \/
   (JS.endsWith "water_" "." = false /\
    "water_.geom" = "water_" ++ "." ++ ShaderType.char4 geometry)).
Proof.
  refine (proj2 (proj2 (proj2
            (tokens_of_classified_file posix.basename posix.dirname
               "/src/water_gs.glsl"
               {| ShaderTokens.baseFilename := "water_";
                  ShaderTokens.baseShaderType := geometry;
                  ShaderTokens.dirName := "/src";
                  ShaderTokens.outFilename := "water_.geom";
                  ShaderTokens.fullFilename := "/src/water_gs.glsl" |}
               _)))).
  reflexivity.
Defined.

(** X6: the output name is a fixed point of the classifier: when
    [path.basename] leaves it as it is, classifying the output name of a
    classified file gives the same stage and the same output name. *)
Theorem canonical_name_is_fixed_point (basename dirname : string -> string)
  (f : string) (tokens : ShaderTokens.t) :
  extractShaderFilenameTokens basename dirname f = Return tokens ->
  basename (ShaderTokens.outFilename tokens)
  = ShaderTokens.outFilename tokens ->
  exists again,
    extractShaderFilenameTokens basename dirname
      (ShaderTokens.outFilename tokens) = Return again /\
    ShaderTokens.baseShaderType again = ShaderTokens.baseShaderType tokens /\
    ShaderTokens.outFilename again = ShaderTokens.outFilename tokens.
Proof.
  intros E B.
  destruct (classify_cases basename dirname f)
    as [(Q & base & sep & code & t & HQ & M & L & Ht & E') | [_ E']];
    rewrite E' in E; [|discriminate].
  injection E as <-.
  cbn [tokensOf ShaderTokens.baseShaderType ShaderTokens.outFilename] in *.
  assert (S : exists front,
             JS.oneLine front = true /\
             (if JS.endsWith (base ++ String sep EmptyString) "."
              then base ++ String sep EmptyString
              else (base ++ String sep EmptyString) ++ ".")
             = front ++ ".").
  { destruct M as (_ & Hsep & _ & Hb).
    destruct (JS.endsWith (base ++ String sep EmptyString) ".") eqn:D.
    - apply endsWith_iff in D as [front D]. exists front; split; [|exact D].
      apply append_char_inj in D as [<- _]. exact Hb.
    - exists (base ++ String sep EmptyString); split; [|reflexivity].
      rewrite oneLine_append, Hb.
      repeat (destruct HQ as [<-|HQ]); try contradiction;
        simpl in Hsep; repeat (destruct Hsep as [<-|Hsep]);
        try contradiction; reflexivity. }
  destruct S as (front & Hf & S). rewrite S in *. clear S.
  assert (M4 : Matches char4bare (front ++ "." ++ ShaderType.char4 t)
                 front "." (ShaderType.char4 t)).
  { repeat split; auto.
    - cbn [tail char4bare append]. rewrite append_empty_r; reflexivity.
    - simpl; tauto.
    - simpl in Ht. repeat (destruct Ht as [<-|Ht]); try contradiction;
        simpl; tauto. }
  rewrite append_assoc in *. rewrite <- B in M4 at 1.
  rewrite (classify_Matches basename dirname char4bare _ front
             (ShaderType.char4 t) "."
             (or_intror (or_intror (or_intror (or_intror
                (or_introl eq_refl))))) M4).
  assert (L4 : shaderTypeLookup ShaderType.Kchar4 (ShaderType.char4 t)
               = Some t).
  { simpl in Ht. repeat (destruct Ht as [<-|Ht]); try contradiction;
      reflexivity. }
  cbn [field char4bare]. rewrite L4, finish_found.
  eexists; split; [reflexivity|].
  cbn [tokensOf ShaderTokens.baseShaderType ShaderTokens.outFilename].
  split; [reflexivity|].
  change (String "." EmptyString) with ".".
  rewrite endsWith_append, append_assoc; reflexivity.
Qed.

Lemma canonical_name_is_fixed_point_witness :
  exists again,
    extractShaderFilenameTokens posix.basename posix.dirname "water_.geom"
    = Return again /\
    ShaderTokens.baseShaderType again = geometry /\
    ShaderTokens.outFilename again = "water_.geom".
Proof.
  refine (canonical_name_is_fixed_point posix.basename posix.dirname
            "/src/water_gs.glsl"
            {| ShaderTokens.baseFilename := "water_";
               ShaderTokens.baseShaderType := geometry;
               ShaderTokens.dirName := "/src";
               ShaderTokens.outFilename := "water_.geom";
               ShaderTokens.fullFilename := "/src/water_gs.glsl" |}
            _ _); reflexivity.
Defined.

(** ** Further properties: the parser *)

Lemma rev_append (a b : string) : JS.rev (a ++ b) = JS.rev b ++ JS.rev a.
Proof.
  induction a as [|c a IH]; simpl.
  - rewrite append_empty_r; reflexivity.
  - rewrite IH, append_assoc; reflexivity.
Qed.

Lemma rev_involutive (s : string) : JS.rev (JS.rev s) = s.
Proof.
  induction s as [|c s IH]; simpl; [reflexivity|].
  rewrite rev_append, IH; reflexivity.
Qed.

Lemma trimStart_head (s : string) :
  match JS.trimStart s with
  | EmptyString => True
  | String c _ => JS.isWhiteSpace c = false
  end.
Proof.
  induction s as [|c s IH]; simpl; [exact I|].
  destruct (JS.isWhiteSpace c) eqn:Hc; [exact IH | exact Hc].
Qed.

Lemma trimStart_suffix (s : string) :
  exists w, s = w ++ JS.trimStart s.
Proof.
  induction s as [|c s [w IH]]; simpl.
  - exists EmptyString; reflexivity.
  - destruct (JS.isWhiteSpace c).
    + exists (String c w); simpl; congruence.
    + exists EmptyString; reflexivity.
Qed.

(** What [trim] returns has no white space at either end. *)
Lemma trim_trimmed (s : string) : trimmed (JS.trim s).
Proof.
  unfold trimmed, JS.trim. rewrite rev_involutive.
  split; [|apply trimStart_head].
  destruct (trimStart_suffix (JS.rev (JS.trimStart s))) as [w E].
  apply (f_equal JS.rev) in E. rewrite rev_involutive, rev_append in E.
  pose proof (trimStart_head s) as H. rewrite E in H.
  destruct (JS.rev (JS.trimStart (JS.rev (JS.trimStart s)))); [exact I|].
  exact H.
Qed.

(** X7: every diagnostic of the result carries the path of one of the
    submitted shaders, one of the three severities, and a message without
    white space at either end. *)
Theorem diagnostics_well_formed (p : os.platform) (inputs : list Shader.t)
  (output : string) (r : Range) (d : LintResult.t) :
  Forall builtin inputs ->
  In d (parseGlslValidatorResponse p inputs output r) ->
  (exists s, In s inputs /\
             LintResult.file (LintResult.location d)
             = Shader.fullFilename s) /\
  In (LintResult.severity d) VALID_SEVERITY /\
  trimmed (LintResult.excerpt d).
Proof.
  assert (V : forall w, In (getSeverity w) VALID_SEVERITY).
  { intros w.
    destruct (getSeverity_cases w) as [(v & Hv & _ & _ & ->) | [_ ->]];
      [exact Hv | simpl; tauto]. }
  intros _ H.
  apply parse_origin in H
    as (s & line & Hs & _
        & [(_ & [[[g1 g2] g3] g4] & _ & ->) | ([g1 g2] & _ & ->)]).
  - repeat split; [exists s; auto | apply V | apply trim_trimmed ..].
  - repeat split; [exists s; auto | apply V | apply trim_trimmed ..].
Qed.

Lemma diagnostics_well_formed_witness :
  let d :=
    {| LintResult.severity := "info";
       LintResult.excerpt := "unused";
       LintResult.location :=
         {| LintResult.file := Some "/src/b.vsh";
            LintResult.position := 
              ((JS.Int 7, JS.Int 6), (JS.Int 7, JS.Int 6)) |} |} in
  (exists s, In s [aFrag; bVert] /\
             LintResult.file (LintResult.location d)
             = Shader.fullFilename s) /\
  In (LintResult.severity d) VALID_SEVERITY /\
  trimmed (LintResult.excerpt d).
Proof.
  refine (diagnostics_well_formed os.posix [aFrag; bVert]
            (outputOf os.posix ["b.vert"; "Info: 7:8:  unused  "])
            firstRow _ _ _).
  - constructor; [right; left; reflexivity|].
    constructor; [left; reflexivity | constructor].
  - left; reflexivity.
Defined.

Lemma line_at_most_one (n : nat) (s : Shader.t) (r : Range)
  (started : bool) (line : string) :
  List.length (compilePart n s started line ++ linkPart s r line)%list <= 1.
Proof.
  unfold compilePart, linkPart.
  destruct (compileRegex line) as [m|] eqn:C.
  - rewrite compile_link_exclusive by congruence. rewrite app_nil_r.
    destruct (JS.endsWith line (Shader.name s));
      [| destruct (started || (n =? 1)%nat)]; simpl; lia.
  - destruct (JS.endsWith line (Shader.name s));
      [| destruct (started || (n =? 1)%nat)];
      destruct (linkRegex _ line); simpl; lia.
Qed.

Lemma scan_length (n : nat) (s : Shader.t) (r : Range)
  (lines : list string) (started : bool) :
  List.length (scan n s r started lines) <= List.length lines.
Proof.
  revert started; induction lines as [|l lines IH]; intros started;
    cbn [scan List.length]; [lia|].
  rewrite app_assoc, length_app.
  pose proof (line_at_most_one n s r started l).
  specialize (IH (nextStarted n s started l)). lia.
Qed.

(** X8: a line gives at most one diagnostic for a shader, since no line
    fits both patterns: the result has at most as many diagnostics as
    there are shaders times lines of output. *)
Theorem diagnostics_bounded (p : os.platform) (inputs : list Shader.t)
  (output : string) (r : Range) :
  Forall builtin inputs ->
  List.length (parseGlslValidatorResponse p inputs output r)
  <= List.length inputs * List.length (JS.split output (os.EOL p)).
Proof.
  intros _. rewrite parse_flat_map. generalize (List.length inputs) at 1 as n.
  intros n. induction inputs as [|s inputs IH]; cbn [flat_map List.length].
  - lia.
  - rewrite length_app.
    pose proof (scan_length n s r (JS.split output (os.EOL p)) false). lia.
Qed.

Lemma diagnostics_bounded_witness :
  List.length
    (parseGlslValidatorResponse os.win32 [aFrag; bVert]
       (outputOf os.win32 ["a.frag"; "ERROR: 0:1: x"; "b.vert"]) firstRow)
  <= List.length [aFrag; bVert]
     * List.length
         (JS.split (outputOf os.win32 ["a.frag"; "ERROR: 0:1: x"; "b.vert"])
                   (os.EOL os.win32)).
Proof.
  refine (diagnostics_bounded os.win32 [aFrag; bVert] _ firstRow _).
  constructor; [right; left; reflexivity|].
  constructor; [left; reflexivity | constructor].
Defined.

Lemma scan_batch_size (n m : nat) (s : Shader.t) (r : Range)
  (lines : list string) (started : bool) :
  (n =? 1)%nat = (m =? 1)%nat ->
  scan n s r started lines = scan m s r started lines.
Proof.
  intros E. revert started; induction lines as [|l lines IH];
    intros started; cbn [scan]; [reflexivity|].
  unfold compilePart, nextStarted. rewrite E, IH; reflexivity.
Qed.

(** X9: batches that are not of one shader compose: the result for two
    such batches put together is the result for the first followed by the
    result for the second. *)
Theorem batches_compose (p : os.platform) (xs ys : list Shader.t)
  (output : string) (r : Range) :
  List.length xs <> 1 -> List.length ys <> 1 ->
  parseGlslValidatorResponse p (xs ++ ys) output r
  = (parseGlslValidatorResponse p xs output r
     ++ parseGlslValidatorResponse p ys output r)%list.
Proof.
  intros Hx Hy. rewrite !parse_flat_map, flat_map_app.
  assert (Hxy : List.length (xs ++ ys) <> 1) by (rewrite length_app; lia).
  apply Nat.eqb_neq in Hx, Hy, Hxy.
  f_equal; apply flat_map_ext; intros s;
    apply scan_batch_size; congruence.
Qed.

Lemma batches_compose_witness :
  parseGlslValidatorResponse os.posix ([aFrag; bVert] ++ [bVert; aFrag])
    (outputOf os.posix ["b.vert"; "ERROR: 0:2: y"]) firstRow
  = (parseGlslValidatorResponse os.posix [aFrag; bVert]
       (outputOf os.posix ["b.vert"; "ERROR: 0:2: y"]) firstRow
     ++ parseGlslValidatorResponse os.posix [bVert; aFrag]
          (outputOf os.posix ["b.vert"; "ERROR: 0:2: y"]) firstRow)%list.
Proof.
  refine (batches_compose os.posix [aFrag; bVert] [bVert; aFrag] _ firstRow
            _ _); discriminate.
Defined.

(** X10: with one shader the flag decides nothing: whatever its value
    when the lines are read, the same diagnostics are added. *)
Theorem single_shader_flag_irrelevant (s : Shader.t) (r : Range)
  (lines : list string) (acc : list LintResult.t) (st st' : bool) :
  snd (fold_left (forEachLine 1 s r) lines (st, acc))
  = snd (fold_left (forEachLine 1 s r) lines (st', acc)).
Proof.
  rewrite !fold_forEachLine. cbn [snd]. f_equal.
  revert st st'; induction lines as [|l lines IH]; intros st st';
    cbn [scan]; [reflexivity|].
  unfold compilePart. cbn [Nat.eqb]. rewrite !orb_true_r.
  f_equal. f_equal. apply IH.
Qed.

Lemma severity_char_not_terminator (c : ascii) :
  isSeverityChar c = true -> JS.isLineTerminator c = false.
Proof.
  destruct c as [[] [] [] [] [] [] [] []]; intros H;
    try reflexivity; vm_compute in H; discriminate H.
Qed.

Lemma digit_not_terminator (c : ascii) :
  JS.isDigit c = true -> JS.isLineTerminator c = false.
Proof.
  destruct c as [[] [] [] [] [] [] [] []]; intros H;
    try reflexivity; vm_compute in H; discriminate H.
Qed.

Lemma forallb_oneLine (q : ascii -> bool) (s : string) :
  (forall c, q c = true -> JS.isLineTerminator c = false) ->
  JS.forallb q s = true -> JS.oneLine s = true.
Proof.
  intros Q. unfold JS.oneLine. induction s as [|c s IH]; simpl;
    [reflexivity|].
  intros H. apply andb_true_iff in H as [Hc Hs].
  rewrite (Q c Hc), (IH Hs); reflexivity.
Qed.

Lemma compileRegex_oneLine (line : string) :
  compileRegex line <> None -> JS.oneLine line = true.
Proof.
  destruct (compileRegex line) as [[[[g1 g2] g3] g4]|] eqn:C;
    [intros _ | congruence].
  apply compileRegex_iff in C as (-> & _ & F1 & _ & F2 & _ & F3 & O).
  rewrite !oneLine_append, O.
  rewrite (forallb_oneLine _ _ severity_char_not_terminator F1).
  rewrite (forallb_oneLine _ _ digit_not_terminator F2).
  rewrite (forallb_oneLine _ _ digit_not_terminator F3).
  reflexivity.
Qed.

Lemma linkRegex_oneLine (s : Shader.t) (line : string) :
  builtin s ->
  linkRegex (ShaderType.name (Shader.type s)) line <> None ->
  JS.oneLine line = true.
Proof.
  intros B. destruct (linkRegex _ line) as [[g1 g2]|] eqn:L;
    [intros _ | congruence].
  apply linkRegex_iff in L as (-> & _ & F1 & O).
  rewrite !oneLine_append, O.
  rewrite (forallb_oneLine _ _ severity_char_not_terminator F1).
  unfold builtin in B. simpl in B.
  repeat (destruct B as [<-|B]); try contradiction; reflexivity.
Qed.

(** X11: a line with a carriage return or a line feed in it fits neither
    pattern and adds no diagnostic; so every line of an output with CR LF
    ends read on a platform whose line end is LF. *)
Theorem line_with_terminator_ignored (n : nat) (s : Shader.t) (r : Range)
  (started : bool) (acc : list LintResult.t) (line : string) :
  builtin s ->
  JS.oneLine line = false ->
  compileRegex line = None /\
  linkRegex (ShaderType.name (Shader.type s)) line = None /\
  snd (forEachLine n s r (started, acc) line) = acc.
Proof.
  intros B O.
  assert (C : compileRegex line = None).
  { destruct (compileRegex line) eqn:C; [|reflexivity].
    rewrite compileRegex_oneLine in O by congruence. discriminate. }
  assert (L : linkRegex (ShaderType.name (Shader.type s)) line = None).
  { destruct (linkRegex _ line) eqn:L; [|reflexivity].
    rewrite (linkRegex_oneLine s line B) in O by congruence. discriminate. }
  repeat split; auto.
  rewrite forEachLine_eq. cbn [snd]. unfold compilePart, linkPart.
  rewrite C, L.
  destruct (JS.endsWith line (Shader.name s));
    [| destruct (started || (n =? 1)%nat)];
    rewrite !app_nil_r; reflexivity.
Qed.

Lemma line_with_terminator_ignored_witness :
  parseGlslValidatorResponse os.posix [aFrag]
    (outputOf os.win32 ["ERROR: 0:1: first"; "ERROR: 0:2: second"; "tail"])
    firstRow = [] /\
  snd (forEachLine 1 aFrag firstRow (false, [])
         (outputOf os.win32 ["ERROR: 0:1: first"; EmptyString]))
  = [].
Proof.
  split; [reflexivity|].
  refine (proj2 (proj2 (line_with_terminator_ignored 1 aFrag firstRow false
                          [] _ _ _))).
  - right; left; reflexivity.
  - reflexivity.
Defined.

(** ** Letters and their capitals *)

Lemma lowerChar_small (c x : ascii) :
  JS.between 97 122 x = true ->
  JS.lowerChar c = x <->
  (c = x \/ (N_of_ascii c + 32 = N_of_ascii x)%N).
Proof.
  unfold JS.lowerChar, JS.between, JS.code. intros Hx.
  apply andb_true_iff in Hx as [X1 X2].
  apply N.leb_le in X1, X2.
  pose proof (N_ascii_bounded c) as Bc.
  destruct (N.leb_spec 65 (N_of_ascii c)), (N.leb_spec (N_of_ascii c) 90),
    (N.leb_spec 192 (N_of_ascii c)), (N.leb_spec (N_of_ascii c) 222),
    (N.eqb_spec (N_of_ascii c) 215);
    cbn [andb orb negb];
    try (split;
         [ intros E; right; rewrite <- E;
           rewrite N_ascii_embedding by lia; reflexivity
         | intros [E|E];
           [ subst x; lia | rewrite E; apply ascii_N_embedding ] ]);
    (split; [ intros E; left; exact E | intros [E|E]; [exact E | lia] ]).
Qed.

Lemma toLowerCase_spelled (v w : string) :
  smallLetters v -> JS.toLowerCase w = v <-> spelled v w.
Proof.
  revert w. induction v as [|x v IH]; intros [|c w] S;
    cbn [JS.toLowerCase spelled]; try (split; [discriminate | tauto]).
  - tauto.
  - destruct S as [Sx Sv]. specialize (IH w Sv).
    pose proof (lowerChar_small c x Sx) as L.
    split.
    + intros [= E1 E2]. split; [apply L | apply IH]; assumption.
    + intros [E1 E2]. f_equal; [apply L | apply IH]; assumption.
Qed.

Lemma getSeverity_SeverityOf (word : string) :
  SeverityOf word (getSeverity word).
Proof.
  assert (E : forall v, smallLetters v ->
                        JS.toLowerCase word = v <-> spelled v word)
    by (intros v; apply toLowerCase_spelled).
  pose proof (E "error" ltac:(cbn; tauto)) as E1.
  pose proof (E "warning" ltac:(cbn; tauto)) as E2.
  pose proof (E "info" ltac:(cbn; tauto)) as E3.
  unfold SeverityOf, getSeverity, VALID_SEVERITY, JS.includes.
  cbn [existsb].
  destruct (String.eqb_spec (JS.toLowerCase word) "error") as [H1|H1].
  { left. split; [apply E1; exact H1 | exact H1]. }
  destruct (String.eqb_spec (JS.toLowerCase word) "warning") as [H2|H2].
  { right; left. split; [apply E2; exact H2 | exact H2]. }
  destruct (String.eqb_spec (JS.toLowerCase word) "info") as [H3|H3].
  { right; right; left. split; [apply E3; exact H3 | exact H3]. }
  cbn [orb]. right; right; right. tauto.
Qed.

(** ** Trimming *)

Lemma forallb_append (q : ascii -> bool) (a b : string) :
  JS.forallb q (a ++ b) = JS.forallb q a && JS.forallb q b.
Proof.
  induction a as [|c a IH]; cbn [append JS.forallb]; [reflexivity|].
  rewrite IH, andb_assoc; reflexivity.
Qed.

Lemma forallb_rev (q : ascii -> bool) (s : string) :
  JS.forallb q (JS.rev s) = JS.forallb q s.
Proof.
  induction s as [|c s IH]; cbn [JS.rev JS.forallb]; [reflexivity|].
  rewrite forallb_append, IH. cbn [JS.forallb].
  rewrite andb_true_r. apply andb_comm.
Qed.

Lemma trimStart_white (s : string) :
  exists w, s = w ++ JS.trimStart s /\ JS.forallb JS.isWhiteSpace w = true.
Proof.
  induction s as [|c s (w & E & W)]; cbn [JS.trimStart].
  - exists EmptyString; auto.
  - destruct (JS.isWhiteSpace c) eqn:D.
    + exists (String c w). cbn [append JS.forallb].
      rewrite <- E, D, W; auto.
    + exists EmptyString; auto.
Qed.

Lemma trim_TrimOf (text : string) : TrimOf text (JS.trim text).
Proof.
  split; [exact (trim_trimmed text)|].
  unfold JS.trim.
  destruct (trimStart_white text) as (front & E1 & W1).
  destruct (trimStart_white (JS.rev (JS.trimStart text))) as (w & E2 & W2).
  exists front, (JS.rev w). repeat split; auto.
  - rewrite <- rev_append, <- E2, rev_involutive. exact E1.
  - rewrite forallb_rev; exact W2.
Qed.

(** ** Splitting an output into its lines *)

Lemma splitFrom_line (p : os.platform) (l t cur : string) :
  JS.oneLine l = true ->
  JS.splitFrom (os.EOL p) 0 cur (l ++ t)
  = JS.splitFrom (os.EOL p) 0 (JS.rev l ++ cur) t.
Proof.
  revert cur. induction l as [|c l IH]; intros cur H; [reflexivity|].
  cbn [JS.oneLine JS.forallb] in H. apply andb_true_iff in H as [Hc Hl].
  cbn [append JS.rev]. rewrite append_assoc. cbn [append].
  rewrite <- (IH (String c cur) Hl).
  assert (N : prefix (os.EOL p) (String c (l ++ t)) = false).
  { destruct p; cbn [os.EOL prefix];
      match goal with |- context [ascii_dec ?a c] =>
        destruct (ascii_dec a c) as [<-|]; [discriminate Hc | reflexivity]
      end. }
  cbn [JS.splitFrom]. rewrite N. reflexivity.
Qed.

Lemma splitFrom_EOL (p : os.platform) (t cur : string) :
  JS.splitFrom (os.EOL p) 0 cur (os.EOL p ++ t)
  = JS.rev cur :: JS.splitFrom (os.EOL p) 0 EmptyString t.
Proof. destruct p, t; reflexivity. Qed.

Lemma splitFrom_outputOf (p : os.platform) (l : string)
  (lines : list string) (cur : string) :
  Forall (fun l => JS.oneLine l = true) (l :: lines) ->
  JS.splitFrom (os.EOL p) 0 cur (outputOf p (l :: lines))
  = (JS.rev cur ++ l) :: lines.
Proof.
  revert l cur. induction lines as [|l2 lines IH]; intros l cur H;
    inversion H as [|? ? Hl H']; subst.
  - unfold outputOf; cbn [String.concat].
    pose proof (splitFrom_line p l EmptyString cur Hl) as Q.
    rewrite append_empty_r in Q. rewrite Q. cbn [JS.splitFrom].
    rewrite rev_append, rev_involutive. reflexivity.
  - unfold outputOf in *. cbn [String.concat].
    change (match lines with
            | [] => l2
            | _ :: _ => l2 ++ os.EOL p ++ String.concat (os.EOL p) lines
            end) with (String.concat (os.EOL p) (l2 :: lines)).
    rewrite (splitFrom_line p l _ cur Hl), splitFrom_EOL.
    rewrite (IH l2 EmptyString H'), rev_append, rev_involutive.
    reflexivity.
Qed.

(** The pieces of an output made of lines are the lines. *)
Lemma split_outputOf (p : os.platform) (lines : list string) :
  lines <> [] ->
  Forall (fun l => JS.oneLine l = true) lines ->
  JS.split (outputOf p lines) (os.EOL p) = lines.
Proof.
  destruct lines as [|l lines]; [congruence|]. intros _ H.
  unfold JS.split. rewrite (splitFrom_outputOf p l lines EmptyString H).
  reflexivity.
Qed.

(** ** Where a diagnostic comes from, in the words of the statements *)

Lemma compileResult_spec (s : Shader.t) (line g1 g2 g3 g4 : string) :
  CompileLine line g1 g2 g3 g4 ->
  exists severity message l c,
    SeverityOf g1 severity /\ TrimOf g4 message /\
    PointOf (decimal g3) l /\ PointOf (decimal g2) c /\
    compileResult s (g1, g2, g3, g4)
    = {| LintResult.severity := severity;
         LintResult.excerpt := message;
         LintResult.location :=
           {| LintResult.file := Shader.fullFilename s;
              LintResult.position := ((l, c), (l, c)) |} |}.
Proof.
  intros (_ & _ & _ & N2 & D2 & N3 & D3 & _).
  destruct (parseInt_decimal g2 N2 D2) as [E2 P2].
  destruct (parseInt_decimal g3 N3 D3) as [E3 P3].
  exists (getSeverity g1), (JS.trim g4),
    (JS.zeroBased (JS.parseInt g3)), (JS.zeroBased (JS.parseInt g2)).
  unfold compileResult. rewrite E2, E3.
  exact (conj (getSeverity_SeverityOf g1)
           (conj (trim_TrimOf g4)
              (conj (zeroBased_PointOf _ P3)
                 (conj (zeroBased_PointOf _ P2) eq_refl)))).
Qed.

Lemma linkResult_spec (s : Shader.t) (r : Range) (g1 g2 : string) :
  exists severity message,
    SeverityOf g1 severity /\ TrimOf g2 message /\
    linkResult s r (g1, g2)
    = {| LintResult.severity := severity;
         LintResult.excerpt := message;
         LintResult.location :=
           {| LintResult.file := Shader.fullFilename s;
              LintResult.position := r |} |}.
Proof.
  exists (getSeverity g1), (JS.trim g2).
  split; [apply getSeverity_SeverityOf | split; [apply trim_TrimOf|]].
  reflexivity.
Qed.

Lemma diagnostic_origin (p : os.platform) (inputs : list Shader.t)
  (output : string) (r : Range) (d : LintResult.t) :
  In d (parseGlslValidatorResponse p inputs output r) ->
  exists s line severity message,
    In s inputs /\ In line (JS.split output (os.EOL p)) /\
    d = {| LintResult.severity := severity;
           LintResult.excerpt := message;
           LintResult.location :=
             {| LintResult.file := Shader.fullFilename s;
                LintResult.position :=
                  LintResult.position (LintResult.location d) |} |} /\
    ((exists g1 g2,
         LinkLine (ShaderType.name (Shader.type s)) line g1 g2 /\
         SeverityOf g1 severity /\ TrimOf g2 message /\
         LintResult.position (LintResult.location d) = r) \/
     (exists g1 g2 g3 g4 l c,
         CompileLine line g1 g2 g3 g4 /\
         JS.endsWith line (Shader.name s) = false /\
         SeverityOf g1 severity /\ TrimOf g4 message /\
         PointOf (decimal g3) l /\ PointOf (decimal g2) c /\
         LintResult.position (LintResult.location d) = ((l, c), (l, c)))).
Proof.
  intros H.
  apply parse_origin in H
    as (s & line & Hs & Hl
        & [(Hh & [[[g1 g2] g3] g4] & C & ->) | ([g1 g2] & L & ->)]).
  - apply compileRegex_iff in C.
    destruct (compileResult_spec s line g1 g2 g3 g4 C)
      as (severity & message & l & c & S & T & Pl & Pc & ->).
    exists s, line, severity, message.
    refine (conj Hs (conj Hl (conj eq_refl _))).
    right. exists g1, g2, g3, g4, l, c.
    exact (conj C (conj Hh (conj S (conj T (conj Pl (conj Pc eq_refl)))))).
  - apply linkRegex_iff in L.
    destruct (linkResult_spec s r g1 g2) as (severity & message & S & T & ->).
    exists s, line, severity, message.
    refine (conj Hs (conj Hl (conj eq_refl _))).
    left. exists g1, g2. exact (conj L (conj S (conj T eq_refl))).
Qed.

(** ** The parser: link lines, severity and positions *)

Lemma link_line_alone (n : nat) (s : Shader.t) (r : Range)
  (started : bool) (line g1 g2 : string) :
  LinkLine (ShaderType.name (Shader.type s)) line g1 g2 ->
  compileRegex line = None /\
  compilePart n s started line = [] /\
  linkPart s r line = [linkResult s r (g1, g2)].
Proof.
  intros L. apply linkRegex_iff in L.
  assert (C : compileRegex line = None).
  { destruct (compileRegex line) as [m|] eqn:C; [|reflexivity].
    rewrite (compile_link_exclusive (ShaderType.name (Shader.type s)) line)
      in L; [discriminate | congruence]. }
  repeat split; auto.
  - unfold compilePart.
    destruct (JS.endsWith line (Shader.name s)); [reflexivity|].
    destruct (started || (n =? 1)%nat); [rewrite C|]; reflexivity.
  - unfold linkPart. rewrite L. reflexivity.
Qed.

(** C5, as the program has it: a line of the link pattern of the stage of
    a shader adds, whatever the flag and the number of shaders, exactly
    one diagnostic: its severity is that of group 1, its message group 2
    without the white space at its ends, its file the path of the shader
    and its range the range of the caller; the result of the parser holds
    it.  Such a line never fits the compile pattern, so the compile
    branch adds nothing for it.  For two shaders and three link lines, of
    the vertex, the fragment and the geometry stage, the result is the
    diagnostic of the vertex line and then that of the fragment line. *)
Theorem link_diagnostic (r : Range) :
  (forall s line g1 g2,
      builtin s ->
      LinkLine (ShaderType.name (Shader.type s)) line g1 g2 ->
      exists severity message,
        SeverityOf g1 severity /\ TrimOf g2 message /\
        let d :=
          {| LintResult.severity := severity;
             LintResult.excerpt := message;
             LintResult.location :=
               {| LintResult.file := Shader.fullFilename s;
                  LintResult.position := r |} |} in
        compileRegex line = None /\
        (forall n started acc,
            snd (forEachLine n s r (started, acc) line)
            = (acc ++ [d])%list) /\
        (forall p inputs output,
            In s inputs -> In line (JS.split output (os.EOL p)) ->
            In d (parseGlslValidatorResponse p inputs output r)) /\
        (forall p inputs lines,
            In s inputs -> In line lines ->
            Forall (fun l => JS.oneLine l = true) lines ->
            In d (parseGlslValidatorResponse p inputs (outputOf p lines)
                    r))) /\
  (forall p,
      parseGlslValidatorResponse p [bVert; aFrag]
        (outputOf p
           [ "Warning: Linking vertex stage:   missing output  ";
             "ERROR: Linking fragment stage: too many varyings";
             "ERROR: Linking geometry stage: no main" ])
        r
      = [ {| LintResult.severity := "warning";
             LintResult.excerpt := "missing output";
             LintResult.location :=
               {| LintResult.file := Some "/src/b.vsh";
                  LintResult.position := r |} |};
          {| LintResult.severity := "error";
             LintResult.excerpt := "too many varyings";
             LintResult.location :=
               {| LintResult.file := Some "/src/a.fs.glsl";
                  LintResult.position := r |} |} ]).
Proof.
  split; [|intros p; destruct p; reflexivity].
  intros s line g1 g2 _ L.
  destruct (linkResult_spec s r g1 g2) as (severity & message & S & T & E).
  exists severity, message. split; [exact S|]. split; [exact T|].
  cbv zeta. rewrite <- E.
  assert (A : forall p inputs output,
             In s inputs -> In line (JS.split output (os.EOL p)) ->
             In (linkResult s r (g1, g2))
                (parseGlslValidatorResponse p inputs output r)).
  { intros p inputs output Hs Hl.
    apply in_split in Hl as (before & rest & El).
    apply In_parse. exists s, before, line, rest.
    repeat split; auto.
    destruct (link_line_alone (List.length inputs) s r
                (fold_left (nextStarted (List.length inputs) s) before false)
                line g1 g2 L) as (_ & -> & ->).
    left; reflexivity. }
  split; [|split; [|split]].
  - apply (link_line_alone 0 s r false line g1 g2 L).
  - intros n started acc. rewrite forEachLine_eq. cbn [snd].
    destruct (link_line_alone n s r started line g1 g2 L) as (_ & -> & ->).
    reflexivity.
  - exact A.
  - intros p inputs lines Hs Hl F. apply A; [exact Hs|].
    rewrite split_outputOf; auto. intros ->; destruct Hl.
Qed.

Lemma link_diagnostic_witness :
  exists severity message,
    SeverityOf "ERROR" severity /\ TrimOf " too many varyings" message /\
    In {| LintResult.severity := severity;
          LintResult.excerpt := message;
          LintResult.location :=
            {| LintResult.file := Some "/src/a.fs.glsl";
               LintResult.position := firstRow |} |}
       (parseGlslValidatorResponse os.win32 [bVert; aFrag]
          (outputOf os.win32
             [ "b.vert";
               "ERROR: Linking fragment stage:  too many varyings" ])
          firstRow).
Proof.
  destruct (proj1 (link_diagnostic firstRow) aFrag
              "ERROR: Linking fragment stage:  too many varyings"
              "ERROR" " too many varyings")
    as (severity & message & S & T & _ & _ & _ & H).
  - right; left; reflexivity.
  - repeat split; (reflexivity || discriminate).
  - exists severity, message. split; [exact S|]. split; [exact T|].
    apply H.
    + right; left; reflexivity.
    + right; left; reflexivity.
    + repeat constructor.
Defined.

(** No line sets off both a compile match and a link match: a line the
    compile pattern accepts is refused by the link pattern of each of the
    six stages.  After the severity word the one wants a number and the
    other the word Linking. *)
Lemma no_line_matches_both :
  (forall t line,
      In t shaderTypes -> compileRegex line <> None ->
      linkRegex (ShaderType.name t) line = None) /\
  compileRegex "ERROR: 0:1: Linking fragment stage: x"
  = Some ("ERROR", "0", "1", "Linking fragment stage: x") /\
  linkRegex "fragment" "ERROR: 0:1: Linking fragment stage: x" = None /\
  linkRegex "fragment" "ERROR: Linking fragment stage: 0:1: x"
  = Some ("ERROR", "0:1: x") /\
  compileRegex "ERROR: Linking fragment stage: 0:1: x" = None.
Proof.
  split; [|repeat split; reflexivity].
  intros t line _ C. apply compile_link_exclusive; exact C.
Qed.



(** C7, as the program has it: a diagnostic of the result comes from a
    line of the output and a shader.  When the line is a link line its
    range is the range of the caller, unchanged.  When it is a compile
    line its range is a point, the same at both ends, made of the line
    and the column the line reports: each is never negative, and for a
    reported number below 2^53 it is that number less one, zero staying
    zero.  So no number of a diagnostic is negative when none of the
    caller's range is. *)
Theorem diagnostic_positions (p : os.platform) (inputs : list Shader.t)
  (output : string) (r : Range) (d : LintResult.t) :
  Forall builtin inputs ->
  In d (parseGlslValidatorResponse p inputs output r) ->
  (exists s line severity message,
      In s inputs /\ In line (JS.split output (os.EOL p)) /\
      ((exists g1 g2,
           LinkLine (ShaderType.name (Shader.type s)) line g1 g2 /\
           SeverityOf g1 severity /\ TrimOf g2 message /\
           d = {| LintResult.severity := severity;
                  LintResult.excerpt := message;
                  LintResult.location :=
                    {| LintResult.file := Shader.fullFilename s;
                       LintResult.position := r |} |}) \/
       (exists g1 g2 g3 g4 l c,
           CompileLine line g1 g2 g3 g4 /\
           SeverityOf g1 severity /\ TrimOf g4 message /\
           PointOf (decimal g3) l /\ PointOf (decimal g2) c /\
           d = {| LintResult.severity := severity;
                  LintResult.excerpt := message;
                  LintResult.location :=
                    {| LintResult.file := Shader.fullFilename s;
                       LintResult.position := ((l, c), (l, c)) |} |}))) /\
  (nonNegative r ->
   nonNegative (LintResult.position (LintResult.location d))).
Proof.
  intros _ H.
  apply diagnostic_origin in H
    as (s & line & severity & message & Hs & Hl & E
        & [(g1 & g2 & L & S & T & P)
          | (g1 & g2 & g3 & g4 & l & c & C & _ & S & T & Pl & Pc & P)]);
    rewrite P in E |- *.
  - split; [|intros N; exact N].
    exists s, line, severity, message.
    refine (conj Hs (conj Hl _)).
    left. exists g1, g2. rewrite E at 1.
    exact (conj L (conj S (conj T eq_refl))).
  - split.
    + exists s, line, severity, message.
      refine (conj Hs (conj Hl _)).
      right. exists g1, g2, g3, g4, l, c. rewrite E at 1.
      exact (conj C (conj S (conj T (conj Pl (conj Pc eq_refl))))).
    + intros _. unfold nonNegative; cbn [fst snd].
      exact (conj (proj1 Pl) (conj (proj1 Pc) (conj (proj1 Pl) (proj1 Pc)))).
Qed.

Lemma diagnostic_positions_witness :
  exists l c,
    PointOf 12 l /\ PointOf 0 c /\
    In {| LintResult.severity := "error";
          LintResult.excerpt := "'x' : undeclared identifier";
          LintResult.location :=
            {| LintResult.file := Some "/src/a.fs.glsl";
               LintResult.position := ((l, c), (l, c)) |} |}
       (parseGlslValidatorResponse os.posix [aFrag]
          "ERROR: 0:12: 'x' : undeclared identifier" firstRow) /\
    nonNegative ((l, c), (l, c)) /\
    (l, c) = (JS.Int 11, JS.Int 0).
Proof.
  destruct (diagnostic_positions os.posix [aFrag]
              "ERROR: 0:12: 'x' : undeclared identifier" firstRow
              {| LintResult.severity := "error";
                 LintResult.excerpt := "'x' : undeclared identifier";
                 LintResult.location :=
                   {| LintResult.file := Some "/src/a.fs.glsl";
                      LintResult.position :=
                        ((JS.Int 11, JS.Int 0), (JS.Int 11, JS.Int 0)) |} |})
    as [_ N].
  - constructor; [right; left; reflexivity | constructor].
  - left; reflexivity.
  - exists (JS.Int 11), (JS.Int 0).
    split; [split; [cbn; lia | reflexivity]|].
    split; [split; [cbn; lia | reflexivity]|].
    split; [left; reflexivity|].
    split; [apply N; unfold nonNegative, firstRow; cbn [fst snd nonNeg]; lia
           | reflexivity].
Defined.

(** From 2^53 on a reported number is not decremented by one: it is
    rounded to a double when it is read and again after the subtraction.
    The column 9007199254740993 is read as 9007199254740992 and becomes
    9007199254740991, two less than reported. *)
Lemma large_column_not_decremented :
  parseGlslValidatorResponse os.posix [aFrag]
    "ERROR: 9007199254740993:1: x" firstRow
  = [ {| LintResult.severity := "error";
         LintResult.excerpt := "x";
         LintResult.location :=
           {| LintResult.file := Some "/src/a.fs.glsl";
              LintResult.position :=
                ((JS.Int 0, JS.Int 9007199254740991),
                 (JS.Int 0, JS.Int 9007199254740991)) |} |} ] /\
  (9007199254740993 - 1 <> 9007199254740991)%Z.
Proof. split; [vm_compute; reflexivity | lia]. Qed.

(** ** Further properties: the linter *)

Lemma getSeverity_in_valid (word : string) :
  In (getSeverity word) VALID_SEVERITY.
Proof.
  destruct (getSeverity_cases word) as [(v & Hv & _ & _ & ->) | [_ ->]];
    [exact Hv | simpl; tauto].
Qed.

Lemma classifier_cases_aux (basename dirname : string -> string)
  (f : string) :
  (exists tokens,
      extractShaderFilenameTokens basename dirname f = Return tokens) \/
  extractShaderFilenameTokens basename dirname f
  = Throw "Unknown shader type".
Proof.
  destruct (classify_cases basename dirname f)
    as [(Q & base & sep & code & t & _ & _ & _ & _ & E) | [_ E]];
    [left; eauto | right; exact E].
Qed.

Section LinterFacts.

Variables basename dirname : string -> string.
Variable exec : string -> list Shader.t -> Result string.
Variable generateRange : TextEditor -> Result Range.
Variable exported : bool.

Local Abbreviation run :=
  (lint basename dirname exec generateRange exported).

(** X12: [lint] throws in three cases only: a TypeError when the state
    has no validator path and [module.exports] has no [config] to take
    the default from; otherwise "editor.getPath failed" when the editor
    has no path or an empty one, and "Unknown shader type" when the path
    fits no pattern.  A validator that fails, or a range that cannot be
    made, never makes it throw. *)
Theorem lint_throws_iff (p : os.platform) (path : option string)
  (editor : TextEditor) (message : string) :
  run p path editor = Throw message <->
  (path = None /\ exported = false /\ message = "TypeError") \/
  ((path <> None \/ exported = true) /\
   ((truthy (getPath editor) = false /\
     message = "editor.getPath failed") \/
    (exists f,
        getPath editor = Some f /\ f <> EmptyString /\
        extractShaderFilenameTokens basename dirname f
        = Throw "Unknown shader type" /\
        message = "Unknown shader type"))).
Proof.
  unfold lint.
  assert (A : forall command : string,
             (if negb (truthy (getPath editor))
              then Throw "editor.getPath failed"
              else
                match getPath editor with
                | None => Throw "editor.getPath failed"
                | Some file =>
                    match
                      extractShaderFilenameTokens basename dirname file
                    with
                    | Throw message => Throw message
                    | Return shaderFileTokens =>
                        match
                          exec command
                            [shaderOf file (getText editor) shaderFileTokens]
                        with
                        | Throw _ => Return None
                        | Return output =>
                            match generateRange editor with
                            | Throw _ => Return None
                            | Return firstRowRange =>
                                Return
                                  (Some
                                     (parseGlslValidatorResponse p
                                        [shaderOf file (getText editor)
                                           shaderFileTokens]
                                        output firstRowRange))
                            end
                        end
                    end
                end) = Throw message <->
             (truthy (getPath editor) = false /\
              message = "editor.getPath failed") \/
             (exists f,
                 getPath editor = Some f /\ f <> EmptyString /\
                 extractShaderFilenameTokens basename dirname f
                 = Throw "Unknown shader type" /\
                 message = "Unknown shader type")).
  { intros command.
    destruct (getPath editor) as [f|] eqn:G; cbn [truthy negb].
    - destruct (String.eqb_spec f EmptyString) as [->|N]; cbn [negb].
      + split.
        * intros [= <-]; left; auto.
        * intros [[_ ->] | (f & [= <-] & N & _)]; congruence.
      + destruct (classifier_cases_aux basename dirname f)
          as [(tokens & E) | E]; rewrite E.
        * split.
          -- destruct (exec _ _); [destruct (generateRange editor)|];
               discriminate.
          -- intros [[H _] | (f' & [= <-] & _ & H & _)];
               [discriminate H | congruence].
        * split.
          -- intros [= <-]. right; exists f; auto.
          -- intros [[H _] | (f' & _ & _ & _ & ->)];
               [discriminate H | reflexivity].
    - split.
      + intros [= <-]; left; auto.
      + intros [[_ ->] | (f & H & _)]; [reflexivity | discriminate]. }
  destruct path as [command|]; [|destruct exported]; cbn [configDefault].
  - rewrite (A command). split.
    + intros H. right. split; [left; discriminate | exact H].
    + intros [(H & _) | (_ & H)]; [discriminate H | exact H].
  - rewrite (A defaultValidatorPath). split.
    + intros H. right. split; [right; reflexivity | exact H].
    + intros [(_ & H & _) | (_ & H)]; [discriminate H | exact H].
  - split.
    + intros [= <-]. left; auto.
    + intros [(_ & _ & ->) | ([H | H] & _)];
        [reflexivity | congruence | discriminate H].
Qed.

(** X13: the results [lint] resolves with all carry the path of the
    editor, one of the three severities and a message without white space
    at either end. *)
Theorem lint_results_for_edited_file (p : os.platform)
  (path : option string) (editor : TextEditor)
  (results : list LintResult.t) (d : LintResult.t) :
  run p path editor = Return (Some results) ->
  In d results ->
  LintResult.file (LintResult.location d) = getPath editor /\
  truthy (getPath editor) = true /\
  In (LintResult.severity d) VALID_SEVERITY /\
  trimmed (LintResult.excerpt d).
Proof.
  unfold lint.
  destruct (match path with
            | Some command => Return command
            | None => configDefault exported
            end) as [command|]; [|discriminate].
  destruct (truthy (getPath editor)) eqn:T;
    cbn [negb]; [|discriminate].
  destruct (getPath editor) as [f|]; [|discriminate].
  destruct (extractShaderFilenameTokens basename dirname f) as [tokens|];
    [|discriminate].
  destruct (exec _ _) as [output|]; [|discriminate].
  destruct (generateRange editor) as [r|]; [|discriminate].
  intros [= <-] H.
  apply parse_origin in H
    as (s & line & [<-|[]] & _
        & [(_ & [[[g1 g2] g3] g4] & _ & ->) | ([g1 g2] & _ & ->)]);
    repeat split;
    first [ reflexivity | apply getSeverity_in_valid | apply trim_trimmed ].
Qed.


End LinterFacts.

Lemma lint_throws_iff_witness :
  lint posix.basename posix.dirname
    (fun _ _ => Return "ERROR: 0:1: x") (fun _ => Return firstRow) false
    os.posix None (MkEditor (Some "/src/sky.frag") "void main() {}")
  = Throw "TypeError" /\
  lint posix.basename posix.dirname
    (fun _ _ => Return "ERROR: 0:1: x") (fun _ => Return firstRow) true
    os.posix None (MkEditor (Some EmptyString) "void main() {}")
  = Throw "editor.getPath failed" /\
  lint posix.basename posix.dirname
    (fun _ _ => Return "ERROR: 0:1: x") (fun _ => Return firstRow) false
    os.posix (Some "glslangValidator")
    (MkEditor (Some "/src/sky.glsl") "void main() {}")
  = Throw "Unknown shader type".
Proof.
  split; [|split];
    apply (proj2 (lint_throws_iff posix.basename posix.dirname _ _ _ _ _ _ _)).
  - left. repeat split.
  - right. split; [right; reflexivity|]. left. split; reflexivity.
  - right. split; [left; discriminate|]. right.
    exists "/src/sky.glsl". repeat split. discriminate.
Defined.

Lemma lint_results_for_edited_file_witness :
  let d :=
    {| LintResult.severity := "warning";
       LintResult.excerpt := "unused variable";
       LintResult.location :=
         {| LintResult.file := Some "/src/sky.frag";
            LintResult.position :=
              ((JS.Int 11, JS.Int 6), (JS.Int 11, JS.Int 6)) |} |} in
  LintResult.file (LintResult.location d) = Some "/src/sky.frag" /\
  truthy (Some "/src/sky.frag") = true /\
  In (LintResult.severity d) VALID_SEVERITY /\
  trimmed (LintResult.excerpt d).
Proof.
  refine (lint_results_for_edited_file posix.basename posix.dirname
            (fun _ _ => Return "WARNING: 7:12:  unused variable ")
            (fun _ => Return firstRow) true os.posix None
            (MkEditor (Some "/src/sky.frag") "void main() {}") _ _ _ _).
  - reflexivity.
  - left; reflexivity.
Defined.


(** ** Further properties: the observer of the configuration *)

Lemma report_with_path (given : string) (st : State) (log : list Effect) :
  truthy (glslangValidatorPath st) = true ->
  (forall e, In e log -> e = ConsoleLog \/ e = PanelClose) ->
  truthy (glslangValidatorPath (fst (report given st log))) = true /\
  subscriptions (fst (report given st log)) = subscriptions st /\
  messages (fst (report given st log)) = false /\
  forall e, In e (snd (report given st log)) ->
            e = ConsoleLog \/ e = PanelClose.
Proof.
  intros T L. unfold report. rewrite T.
  destruct (messages st) eqn:M; cbn [fst snd glslangValidatorPath
    subscriptions messages]; repeat split; auto.
  intros e H. apply in_app_or in H as [H | [<-|[]]]; auto.
Qed.

(** X15: the observer never shows the warning "Unable to locate
    glslangValidator".  Its first statement reads the default out of
    [module.exports]: when that has no [config] the observer throws a
    TypeError there and leaves the state as it was.  Otherwise, when
    [which.sync] does not return an empty path and no empty path exists,
    it leaves a path that is not empty (the configured one, the one
    found, or the default); unless [fs.statSync] throws it leaves no
    message panel, and it does nothing to the outside but log and close
    the panel. *)
Theorem observer_never_warns (exported : bool) (pr : Probe)
  (given : string) (st st' : State) (log : list Effect)
  (thrown : option string) :
  whichSync pr <> Return EmptyString ->
  (existsSync pr = true -> given <> EmptyString) ->
  observe exported pr given st = (st', log, thrown) ->
  (forall e, In e log -> e = ConsoleLog \/ e = PanelClose) /\
  subscriptions st' = subscriptions st /\
  (exported = false ->
   st' = st /\ log = [] /\ thrown = Some "TypeError") /\
  (exported = true ->
   truthy (glslangValidatorPath st') = true /\
   match thrown with
   | None => messages st' = false
   | Some _ =>
       messages st' = messages st /\ log = [] /\
       glslangValidatorPath st' = Some defaultValidatorPath
   end).
Proof.
  intros W X. unfold observe, lookOnPath.
  destruct exported; cbn [configDefault].
  2:{ intros [= <- <- <-]. repeat split; try discriminate.
      intros e []. }
  assert (R : forall s l,
             truthy (glslangValidatorPath s) = true ->
             subscriptions s = subscriptions st ->
             (forall e, In e l -> e = ConsoleLog \/ e = PanelClose) ->
             (report given s l, @None string) = (st', log, thrown) ->
             (forall e, In e log -> e = ConsoleLog \/ e = PanelClose) /\
             subscriptions st' = subscriptions st /\
             (true = false ->
              st' = st /\ log = [] /\ thrown = Some "TypeError") /\
             (true = true ->
              truthy (glslangValidatorPath st') = true /\
              match thrown with
              | None => messages st' = false
              | Some _ =>
                  messages st' = messages st /\ log = [] /\
                  glslangValidatorPath st' = Some defaultValidatorPath
              end)).
  { intros s l T S L E.
    destruct (report_with_path given s l T L) as (A & B & C & D).
    destruct (report given s l) as [s1 l1]. injection E as <- <- <-.
    cbn [fst snd] in *.
    split; [exact D|]. split; [congruence|].
    split; [discriminate|]. intros _. split; [exact A | exact C]. }
  assert (OnlyLog : forall e, In e [ConsoleLog] ->
                              e = ConsoleLog \/ e = PanelClose).
  { intros e [<-|[]]; auto. }
  assert (None_ : forall e, In e (@nil Effect) ->
                            e = ConsoleLog \/ e = PanelClose).
  { intros e []. }
  assert (Found : forall found, whichSync pr = Return found ->
                                truthy (Some found) = true).
  { intros found E. cbn [truthy].
    destruct (String.eqb_spec found EmptyString) as [->|]; [|reflexivity].
    congruence. }
  destruct (existsSync pr) eqn:Ex.
  - destruct (isFile pr) as [[|]|message].
    + destruct (accessSync pr); apply R; auto.
      cbn [truthy glslangValidatorPath].
      apply negb_true_iff, String.eqb_neq. auto.
    + destruct (whichSync pr) as [found|] eqn:E; apply R; auto.
      apply (Found found eq_refl).
    + intros [= <- <- <-].
      split; [exact None_|]. split; [reflexivity|].
      split; [discriminate|]. intros _. repeat split.
  - destruct (whichSync pr) as [found|] eqn:E; apply R; auto.
    apply (Found found eq_refl).
Qed.

Lemma observer_never_warns_witness :
  ((forall e, In e [ConsoleLog; PanelClose] ->
              e = ConsoleLog \/ e = PanelClose) /\
   true = true /\
   (true = false ->
    MkState true (Some defaultValidatorPath) false = MkState true None true /\
    [ConsoleLog; PanelClose] = [] /\ @None string = Some "TypeError") /\
   (true = true ->
    truthy (Some defaultValidatorPath) = true /\ false = false)) /\
  observe true (MkProbe false (Return false) false (Throw "not found"))
    "no-such-validator" (MkState true None true)
  = (MkState true (Some "glslangValidator") false,
     [ConsoleLog; PanelClose], None) /\
  observe false (MkProbe false (Return false) false (Throw "not found"))
    "no-such-validator" (MkState true None true)
  = (MkState true None true, [], Some "TypeError").
Proof.
  split; [|split; reflexivity].
  refine (observer_never_warns true
            (MkProbe false (Return false) false (Throw "not found"))
            "no-such-validator" (MkState true None true)
            (MkState true (Some defaultValidatorPath) false)
            [ConsoleLog; PanelClose] None _ _ _).
  - discriminate.
  - discriminate.
  - reflexivity.
Defined.
